(** * game-of-life: the toroidal stepper, the frame encoder and the driver

    A shallow embedding of [gol_color.c].  Buffers are lists of integers
    read and written by index, machine integers are [Z] with their casts
    written out, and [main] is a function from its argument vector and its
    environment to the trace of what it does and its exit status. *)

From stdpp Require Import base list list_numbers strings.
From Stdlib Require Import ZArith Lia.

Local Open Scope Z_scope.

(** ** Machine integers and buffers *)

(** [char] is a signed 8-bit integer (x86-64 System V). *)
Definition char_wrap (z : Z) : Z := (z + 128) mod 256 - 128.

(** [(signed long int)u] for a 64-bit unsigned [u]. *)
Definition slong_of_uint (u : Z) : Z := if u <? 2 ^ 63 then u else u - 2 ^ 64.

(** The value of a C comparison. *)
Definition c_bool (b : bool) : Z := if b then 1 else 0.

(** [buf[i]] and [buf[i] = v].  Reads outside the buffer are undefined in
    C; here they give 0, and writes outside it are dropped.  The theorems
    below only read and write inside the buffers. *)
Definition rd (buf : list Z) (i : Z) : Z :=
  if i <? 0 then 0 else default 0 (buf !! Z.to_nat i).

Definition wr (buf : list Z) (i : Z) (v : Z) : list Z :=
  if i <? 0 then buf else <[Z.to_nat i := v]> buf.

(** [for (i = lo; i < hi; ++i) body], threading the state [s]. *)
Definition for_range {S : Type} (lo hi : Z) (body : Z → S → S) (s : S) : S :=
  foldl (λ s i, body i s) s (seqZ lo (hi - lo)).

(** A grid whose cells are all 0 or 1. *)
Definition binary (g : list Z) : Prop := Forall (λ v, v = 0 ∨ v = 1) g.

(** ** The simulation stepper *)

Module Stepper.

(** The index read by the innermost loop of [do_gen_naive]. *)
Definition wrap_index (h w y x dy dx : Z) : Z :=
  Z.rem (dy + y + h) h * w + Z.rem (dx + x + w) w.

(** The two innermost loops: [live_count] after the 3x3 scan. *)
Definition live_count (src : list Z) (h w y x : Z) : Z :=
  for_range (-1) 2 (λ dy lc,
    for_range (-1) 2 (λ dx lc,
      char_wrap (lc + rd src (wrap_index h w y x dy dx))) lc) 0.

(** The value stored into [dst_buffer[y * w + x]]. *)
Definition next_cell (src : list Z) (h w y x : Z) : Z :=
  let lc := live_count src h w y x in
  c_bool (negb (Z.lor (c_bool (lc =? 3))
                      (Z.land (c_bool (lc =? 4)) (rd src (y * w + x))) =? 0)).

Definition do_gen_naive (dst_buffer src_buffer : list Z) (height width : Z) : list Z :=
  let h := slong_of_uint height in
  let w := slong_of_uint width in
  for_range 0 h (λ y dst,
    for_range 0 w (λ x dst,
      wr dst (y * w + x) (next_cell src_buffer h w y x)) dst) dst_buffer.

(** The self-inclusive 3x3 count in the words of the specification. *)
Definition window_sum (src : list Z) (h w y x : Z) : Z :=
  let cell dy dx := rd src (((y + dy + h) mod h) * w + ((x + dx + w) mod w)) in
  cell (-1) (-1) + cell (-1) 0 + cell (-1) 1 +
  cell 0 (-1) + cell 0 0 + cell 0 1 +
  cell 1 (-1) + cell 1 0 + cell 1 1.

(** The live cells among the eight neighbours on the torus. *)
Definition neighbours8 (src : list Z) (h w y x : Z) : Z :=
  let cell dy dx := rd src (((y + dy + h) mod h) * w + ((x + dx + w) mod w)) in
  cell (-1) (-1) + cell (-1) 0 + cell (-1) 1 +
  cell 0 (-1) + cell 0 1 +
  cell 1 (-1) + cell 1 0 + cell 1 1.

(** The conventional rule: birth on 3 neighbours, survival on 2 or 3. *)
Definition conway_cell (src : list Z) (h w y x : Z) : Z :=
  let n := neighbours8 src h w y x in
  let self := rd src (y * w + x) in
  c_bool ((self =? 0) && (n =? 3) || (self =? 1) && ((n =? 2) || (n =? 3))).

(** The conventional step of a whole [h] by [w] torus, row-major. *)
Definition conway_step (src : list Z) (h w : Z) : list Z :=
  (λ i, conway_cell src h w (i `div` w) (i `mod` w)) <$> seqZ 0 (h * w).

(** A grid that is dead except for a 2x2 block whose top-left cell is at
    row [r], column [c]. *)
Definition in_block (r c y x : Z) : bool :=
  ((r <=? y) && (y <=? r + 1)) && ((c <=? x) && (x <=? c + 1)).

(** Whether a coordinate lies on the block along one axis. *)
Definition on_axis (r y : Z) : Z := c_bool ((r <=? y) && (y <=? r + 1)).

Definition block_grid (h w r c : Z) : list Z :=
  (λ i, c_bool (in_block r c (i `div` w) (i `mod` w))) <$> seqZ 0 (h * w).

(** One generation of a grid of exactly [h * w] cells. *)
Definition step_grid (h w : Z) (g : list Z) : list Z :=
  do_gen_naive (replicate (Z.to_nat (h * w)) 0) g h w.

(** The grid moved on the torus: cell (y, x) of the result is cell
    (y + sy, x + sx) of [g], both coordinates wrapped. *)
Definition shift_grid (h w sy sx : Z) (g : list Z) : list Z :=
  (λ i, rd g (((i `div` w + sy) `mod` h) * w + (i `mod` w + sx) `mod` w))
    <$> seqZ 0 (h * w).

(** Whether a coordinate lies in the span from [a] to [b]. *)
Definition on_span (a b y : Z) : Z := c_bool ((a <=? y) && (y <=? b)).

(** A grid that is alive exactly on rows [r0..r1] of columns [c0..c1]. *)
Definition rect_grid (h w r0 r1 c0 c1 : Z) : list Z :=
  (λ i, on_span r0 r1 (i `div` w) * on_span c0 c1 (i `mod` w)) <$> seqZ 0 (h * w).

End Stepper.

(** ** The frame encoder *)

Module Encoder.

(** Token tables, indexed by [(new_state << 1) | old_state]; a token is
    the little-endian 16-bit word of two ASCII digits. *)
Definition color_tokens_4bit : list Z := [0x3034; 0x3134; 0x3234; 0x3734].
Definition bw_tokens_4bit : list Z := [0x3034; 0x3734; 0x3034; 0x3734].

(** The body of the inner loop, on the draw buffer, the offset of
    [draw_buffer] in 16-bit words and the common offset of [abp] and [pbp]. *)
Definition fill_cell (active_tokens_4bit active_buffer prev_buffer : list Z)
    (st : list Z * Z * Z) : list Z * Z * Z :=
  let '(db, p, k) := st in
  (wr db p (rd active_tokens_4bit
              (Z.lor (Z.shiftl (rd active_buffer k) 1) (rd prev_buffer k))),
   p + 3, k + 1).

(** One row: [width] cells, then the pointer skips the row terminator. *)
Definition fill_row (active_tokens_4bit active_buffer prev_buffer : list Z)
    (width : Z) (st : list Z * Z * Z) : list Z * Z * Z :=
  let '(db, p, k) :=
    for_range 0 width
      (λ _ st, fill_cell active_tokens_4bit active_buffer prev_buffer st) st in
  (db, p + 3, k).

(** [active_tokens_4bit] is the global table pointer, passed explicitly. *)
Definition fill_draw_buffer_4bit_color (active_tokens_4bit : list Z)
    (draw_buffer active_buffer prev_buffer : list Z) (height width : Z) : list Z :=
  let '(db, _, _) :=
    for_range 0 height
      (λ _ st, fill_row active_tokens_4bit active_buffer prev_buffer width st)
      (draw_buffer, 1, 0) in
  db.

(** The escape-code scaffolding that [main] writes once. *)
Definition init_unit (db : list Z) (p : Z) (suffix : Z) : list Z :=
  wr (wr (wr db p 0x5B1B) (p + 1) 0x3030) (p + 2) suffix.

Definition init_draw_buffer (draw_buffer : list Z) (height width : Z) : list Z :=
  fst (for_range 0 height (λ _ st,
         let '(db, p) :=
           for_range 0 width
             (λ _ '(db, p), (init_unit db p 0x206D, p + 3)) st in
         (init_unit db p 0x0A6D, p + 3))
       (draw_buffer, 0)).

(** The token stored for cell [k]. *)
Definition cell_token (active_tokens_4bit active_buffer prev_buffer : list Z) (k : Z) : Z :=
  rd active_tokens_4bit (Z.lor (Z.shiftl (rd active_buffer k) 1) (rd prev_buffer k)).

(** The word offset of the colour code of the cell at row [y], column [x]. *)
Definition word_of (width y x : Z) : Z := 1 + 3 * (y * (width + 1) + x).

(** The word offset of the colour code of cell [i] (row-major) in a
    buffer of [width + 1] three-word units per row. *)
Definition slot (width i : Z) : Z := 1 + 3 * (i + i `div` width).

(** The buffer as the byte stream [fwrite] emits (little-endian words). *)
Definition u16_bytes (v : Z) : list Z := [Z.land v 255; Z.shiftr v 8].
Definition draw_bytes (db : list Z) : list Z := db ≫= u16_bytes.

(** The two characters of a token, in stream order. *)
Definition byte_char (b : Z) : Ascii.ascii := Ascii.ascii_of_N (Z.to_N b).
Definition token_code (v : Z) : string :=
  String (byte_char (Z.land v 255)) (String (byte_char (Z.shiftr v 8)) EmptyString).

(** Byte [j] of the stream lies outside the two colour-code bytes of a
    cell unit: a prefix or suffix byte, or any byte of a row terminator. *)
Definition scaffold_byte (width j : Z) : bool :=
  (j `mod` 6 <? 2) || (4 <=? j `mod` 6) || ((j `div` 6) `mod` (width + 1) =? width).

(** The word that the initialisation loop leaves at offset [i]: the
    prefix, the placeholder code, and 'm' with a space, or with a newline
    in the last unit of a row. *)
Definition scaffold_word (width i : Z) : Z :=
  match i `mod` 3 with
  | 0 => 0x5B1B
  | 1 => 0x3030
  | _ => if (i `div` 3) `mod` (width + 1) =? width then 0x0A6D else 0x206D
  end.

(** What the scaffolding holds at byte [j]: ESC, '[', the placeholder
    digits, 'm', and a space or a newline. *)
Definition scaffold_value (width j : Z) : Z :=
  match j `mod` 6 with
  | 0 => 27 | 1 => 91 | 2 => 48 | 3 => 48 | 4 => 109
  | _ => if (j `div` 6) `mod` (width + 1) =? width then 10 else 32
  end.

(** The token table in the words of the specification: keyed by
    [(previous << 1) | current]. *)
Definition spec_token (token_table previous current : list Z) (i : Z) : Z :=
  rd token_table (Z.lor (Z.shiftl (rd previous i) 1) (rd current i)).

(** The code shown for a cell that goes from [previous] to [current],
    with the index as [fill_cell] forms it. *)
Definition transition_code (token_table : list Z) (previous current : Z) : string :=
  token_code (rd token_table (Z.lor (Z.shiftl current 1) previous)).

(** The cell tokens of a frame, as codes, in row-major order. *)
Definition cell_codes (db : list Z) (height width : Z) : list string :=
  (λ i, token_code (rd db (slot width i))) <$> seqZ 0 (height * width).

(** The three words of a display unit: ESC '[', the two code digits,
    and 'm' with what follows it. *)
Definition unit_words (code suffix : Z) : list Z := [0x5B1B; code; suffix].

(** A frame laid out row by row: per cell a unit with the code of the
    cell and a space, per row a closing unit with code 00 and a newline. *)
Definition layout (code : Z → Z → Z) (height width : Z) : list Z :=
  seqZ 0 height ≫= λ y,
    (seqZ 0 width ≫= λ x, unit_words (code y x) 0x206D)
    ++ unit_words 0x3030 0x0A6D.

(** The scaffolding: every cell holds the placeholder code 00. *)
Definition scaffolding (height width : Z) : list Z :=
  layout (λ _ _, 0x3030) height width.

(** The frame that shows [current] against [previous]. *)
Definition render_frame (token_table current previous : list Z)
    (height width : Z) : list Z :=
  layout (λ y x, cell_token token_table current previous (y * width + x))
    height width.

(** Word [o] of the unit in row [y], column [x] of a layout; column
    [width] is the closing unit of the row. *)
Definition layout_word (code : Z → Z → Z) (width y x o : Z) : Z :=
  match o with
  | 0 => 0x5B1B
  | 1 => if x <? width then code y x else 0x3030
  | _ => if x <? width then 0x206D else 0x0A6D
  end.

End Encoder.

(** ** The driver *)

Module Driver.

Definition u64 (z : Z) : Z := z `mod` 2 ^ 64.

Definition rotl5 (value : Z) : Z :=
  Z.lor (u64 (Z.shiftl value 5)) (Z.shiftr value (8 * 8 - 5)).

Definition fxhash (h w : Z) : Z :=
  u64 (Z.lxor (rotl5 h) w * 0x517cc1b727220a95).

(** [*((uint64_t * )abp) = word] on a [char] buffer, little-endian. *)
Definition store_u64 (buf : list Z) (off word : Z) : list Z :=
  for_range 0 8 (λ k b,
    wr b (off + k) (char_wrap (Z.land (Z.shiftr word (8 * k)) 255))) buf.

(** The randomisation block: eight cells per hashed word. *)
Definition randomize (front_buffer : list Z) (num_words seed : Z) : list Z :=
  fst (fst (for_range 0 num_words (λ i '(buf, h, abp),
              let h := fxhash h i in
              (store_u64 buf abp (Z.land h 0x0101010101010101), h, abp + 8))
            (front_buffer, seed, 0))).

(** [memcpy(dst, src, n)]. *)
Definition memcpy (dst src : list Z) (n : Z) : list Z :=
  take (Z.to_nat n) src ++ drop (Z.to_nat n) dst.

(** *** The C library on strings ("C" locale, LP64) *)

Definition code (c : Ascii.ascii) : Z := Z.of_N (Ascii.N_of_ascii c).

Definition tolower (c : Z) : Z := if (65 <=? c) && (c <=? 90) then c + 32 else c.

Definition isspace (c : Z) : bool := (c =? 32) || ((9 <=? c) && (c <=? 13)).

Definition isdigit (c : Z) : bool := (48 <=? c) && (c <=? 57).

Fixpoint strncasecmp (s1 s2 : string) (n : nat) : Z :=
  match n with
  | O => 0
  | Datatypes.S n' =>
      match s1, s2 with
      | EmptyString, EmptyString => 0
      | EmptyString, String c2 _ => 0 - tolower (code c2)
      | String c1 _, EmptyString => tolower (code c1)
      | String c1 r1, String c2 r2 =>
          if tolower (code c1) =? tolower (code c2)
          then strncasecmp r1 r2 n'
          else tolower (code c1) - tolower (code c2)
      end
  end.

Fixpoint skip_spaces (s : string) : string :=
  match s with
  | String c r => if isspace (code c) then skip_spaces r else s
  | EmptyString => s
  end.

(** The longest run of decimal digits, its value added to [acc] in base
    10, and what follows it. *)
Fixpoint read_digits (s : string) (acc : Z) : Z * string :=
  match s with
  | String c r =>
      if isdigit (code c) then read_digits r (10 * acc + (code c - 48)) else (acc, s)
  | EmptyString => (acc, s)
  end.

Definition ULONG_MAX : Z := 2 ^ 64 - 1.

(** What [strtoul(nptr, &end, 10)] gives: the value, the string at
    [end], whether [end != nptr], and whether it sets [errno] to
    [ERANGE]. *)
Record strtoul_result := {
  value : Z;
  rest : string;
  converted : bool;
  erange : bool
}.

Definition strtoul (nptr : string) : strtoul_result :=
  let s := skip_spaces nptr in
  let '(neg, s) :=
    match s with
    | String c r =>
        if code c =? 45 then (true, r)
        else if code c =? 43 then (false, r)
        else (false, s)
    | EmptyString => (false, s)
    end in
  let none := {| value := 0; rest := nptr; converted := false; erange := false |} in
  match s with
  | String c _ =>
      if isdigit (code c) then
        let '(v, r) := read_digits s 0 in
        if ULONG_MAX <? v
        then {| value := ULONG_MAX; rest := r; converted := true; erange := true |}
        else {| value := if neg then u64 (0 - v) else v;
                rest := r; converted := true; erange := false |}
      else none
  | EmptyString => none
  end.

(** *** What the program does, as a trace *)

(** One event for each write on a stream ([Stdout_clear] is [clear_code],
    [Stdout_draw_buffer] the whole draw buffer, [Stdout_reset_font]
    [reset_font_code], [Stdout_gen] the line with the generation number),
    for each allocation and for each pause. *)
Inductive event :=
| Stderr_signal_error
| Stdout_usage
| Stderr_bad_input (argno : Z) (field : string) (lo hi : Z)
| Malloc (bytes : Z)
| Stderr_malloc_failed
| Stdout_clear
| Stdout_draw_buffer (draw_buffer : list Z)
| Stdout_reset_font
| Stdout_gen (gen : Z)
| Sleep (seconds nanoseconds : Z).

(** What [main] takes from its environment: whether [signal] succeeds,
    whether [errno] holds [ERANGE] on entry, whether the k-th [malloc]
    succeeds and what the memory it returns holds, the first [rand()]
    after seeding, and whether [status] is [SIGINT] at its k-th read. *)
Record env := {
  signal_ok : bool;
  errno_erange : bool;
  malloc_ok : nat → bool;
  heap : nat → list Z;
  rand_value : Z;
  status_sigint : nat → bool
}.

(** A block of [n] cells with indeterminate contents [junk]. *)
Definition malloc (junk : list Z) (n : Z) : list Z :=
  take (Z.to_nat n) (junk ++ replicate (Z.to_nat n) 0).

Definition arg (argv : list string) (i : nat) : string := nth i argv EmptyString.

Definition field_names : list string := ["height"; "width"; "max_FPS"]%string.
Definition min_vals : list Z := [1; 1; 0].
Definition max_vals : list Z := [2000; 2000; 4800].

(** The condition that rejects argument [i], given its text. *)
Definition rejects (errno : bool) (i : Z) (text : string) : bool :=
  let r := strtoul text in
  negb (converted r)
  || negb (String.eqb (rest r) EmptyString)
  || (errno || erange r)
  || (value r <? rd min_vals i)
  || (rd max_vals i <? value r).

(** The validation loop: the state is the error reported so far, or
    [vals] and whether [errno] is [ERANGE]. *)
Definition validate_step (argv : list string) (i : Z)
    (st : event + (list Z * bool)) : event + (list Z * bool) :=
  match st with
  | inl e => inl e
  | inr (vals, errno) =>
      let text := arg argv (Z.to_nat (i + 1)) in
      let r := strtoul text in
      if rejects errno i text
      then inl (Stderr_bad_input (i + 1) (nth (Z.to_nat i) field_names EmptyString)
                  (rd min_vals i) (rd max_vals i))
      else inr (wr vals i (value r), errno || erange r)
  end.

Definition validate (argv : list string) (errno : bool) : event + (list Z * bool) :=
  for_range 0 3 (validate_step argv) (inr ([0; 0; 0], errno)).

Record config := {
  tokens : list Z;
  height : Z;
  width : Z;
  max_fps : Z
}.

Definition is_help (a : string) : bool :=
  (strncasecmp a "-h" 2 =? 0) || (strncasecmp a "--help" 6 =? 0).

Definition is_bw (a : string) : bool :=
  (strncasecmp "-bw" a 4 =? 0) || (strncasecmp "--bw" a 5 =? 0).

(** [main] up to the end of the validation loop: an early return, or
    the settings of the run. *)
Definition main_args (e : env) (argv : list string) : (list event * Z) + config :=
  let argc := Z.of_nat (length argv) in
  if negb (signal_ok e) then inl ([Stderr_signal_error], 1)
  else if (argc <? 4) || ((1 <? argc) && is_help (arg argv 1))
  then inl ([Stdout_usage], 0)
  else
    let '(active, argv) :=
      if (5 <=? argc) && is_bw (arg argv 1)
      then (Encoder.bw_tokens_4bit, tail argv)
      else (Encoder.color_tokens_4bit, argv) in
    match validate argv (errno_erange e) with
    | inl ev => inl ([ev], 1)
    | inr (vals, _) =>
        inr {| tokens := active; height := rd vals 0;
               width := rd vals 1; max_fps := rd vals 2 |}
    end.

Record buffers := {
  gen : Z;
  front_buffer : list Z;
  back_buffer : list Z;
  draw_buffer : list Z
}.

(** [while (gen++ < 50000) { ... }]: [k] counts the reads of [status];
    [None] when the fuel runs out before the loop ends. *)
Fixpoint main_loop (fuel : nat) (e : env) (c : config) (sleep_seconds sleep_ns : Z)
    (k : nat) (b : buffers) : option (list event) :=
  match fuel with
  | O => None
  | Datatypes.S fuel =>
      let gen' := u64 (gen b + 1) in
      if gen b <? 50000 then
        if status_sigint e k then Some [Stdout_reset_font]
        else
          let draw := Encoder.fill_draw_buffer_4bit_color (tokens c)
                        (draw_buffer b) (front_buffer b) (back_buffer b)
                        (height c) (width c) in
          let front := back_buffer b in
          let back := front_buffer b in
          let front := Stepper.do_gen_naive front back (height c) (width c) in
          let pause :=
            if Z.lor sleep_seconds sleep_ns =? 0 then []
            else [Sleep sleep_seconds sleep_ns] in
          app (Stdout_clear :: Stdout_draw_buffer draw :: Stdout_reset_font
               :: Stdout_gen gen' :: pause) <$>
            main_loop fuel e c sleep_seconds sleep_ns (Datatypes.S k)
              {| gen := gen'; front_buffer := front; back_buffer := back;
                 draw_buffer := draw |}
      else Some []
  end.

(** [main] from the end of the validation loop on. *)
Definition main_run (fuel : nat) (e : env) (c : config) : option (list event * Z) :=
  let sleep_seconds := if max_fps c =? 0 then 0 else 1 `div` max_fps c in
  let sleep_ns :=
    if max_fps c =? 0 then 0 else (1000000000 `div` max_fps c) `mod` 1000000000 in
  let buffer_area := Z.land (u64 (height c * width c + 7)) 0xFFFFFFF8 in
  let draw_buffer_area := u64 (3 * (width c + 1) * height c) in
  let allocs :=
    [Malloc (u64 (draw_buffer_area * 2)); Malloc buffer_area; Malloc buffer_area] in
  if negb (malloc_ok e 2 && malloc_ok e 1 && malloc_ok e 0)
  then Some (allocs ++ [Stderr_malloc_failed], 1)
  else
    let draw := malloc (heap e 0) draw_buffer_area in
    let front := malloc (heap e 1) buffer_area in
    let back := malloc (heap e 2) buffer_area in
    let num_words := buffer_area `div` 8 in
    let front := randomize front num_words (u64 (rand_value e)) in
    let back := memcpy back front buffer_area in
    let draw := Encoder.init_draw_buffer draw (height c) (width c) in
    (λ tr, (allocs ++ tr, 0)) <$>
      main_loop fuel e c sleep_seconds sleep_ns 0
        {| gen := 0; front_buffer := front; back_buffer := back;
           draw_buffer := draw |}.

Definition main (fuel : nat) (e : env) (argv : list string) : option (list event * Z) :=
  match main_args e argv with
  | inl r => Some r
  | inr c => main_run fuel e c
  end.

(** The loop iterations recorded in a trace: each one writes the font
    reset once, after the frame it draws or, on an interrupt, before it
    leaves. *)
Definition is_iteration (ev : event) : bool :=
  match ev with
  | Stdout_reset_font => true
  | _ => false
  end.

Definition iterations (tr : list event) : Z :=
  Z.of_nat (length (List.filter is_iteration tr)).


(** The text of value [i] (0 height, 1 width, 2 max_FPS) does not parse
    as a whole decimal number, or its value is outside the range. *)
Definition bad_value (i : Z) (text : string) : Prop :=
  let r := strtoul text in
  converted r = false ∨ rest r ≠ EmptyString
  ∨ value r < rd min_vals i ∨ rd max_vals i < value r.

(** The three values [main] validates: [argv] after the optional flag. *)
Definition value_args (argv : list string) : list string :=
  if (5 <=? Z.of_nat (length argv)) && is_bw (arg argv 1) then tail argv else argv.

(** An environment in which every call succeeds and an interrupt arrives
    while the second frame is due. *)
Definition example_env : env :=
  {| signal_ok := true; errno_erange := false; malloc_ok := λ _, true;
     heap := λ _, [7; 7; 7]; rand_value := 12345;
     status_sigint := λ k, (1 <=? k)%nat |}.

(** The draw buffer of the first frame written, if any. *)
Fixpoint first_frame (tr : list event) : option (list Z) :=
  match tr with
  | Stdout_draw_buffer db :: _ => Some db
  | _ :: tr => first_frame tr
  | [] => None
  end.

(** The size of a cell buffer: [height * width] padded to 8 bytes. *)
Definition buffer_area (height width : Z) : Z :=
  Z.land (u64 (height * width + 7)) 0xFFFFFFF8.

(** The pacing delay that [main] derives from [max_fps]. *)
Definition sleep_seconds (max_fps : Z) : Z :=
  if max_fps =? 0 then 0 else 1 `div` max_fps.

Definition sleep_ns (max_fps : Z) : Z :=
  if max_fps =? 0 then 0 else (1000000000 `div` max_fps) `mod` 1000000000.

(** What follows a frame in the trace: the pause, when there is one. *)
Definition pause (max_fps : Z) : list event :=
  if Z.lor (sleep_seconds max_fps) (sleep_ns max_fps) =? 0 then []
  else [Sleep (sleep_seconds max_fps) (sleep_ns max_fps)].

(** The accumulator [h] of the randomisation block after [n] words. *)
Fixpoint hash_at (seed : Z) (n : nat) : Z :=
  match n with
  | O => seed
  | Datatypes.S n => fxhash (hash_at seed n) (Z.of_nat n)
  end.

(** Cell [j] after randomisation: bit [8 * (j mod 8)] of the hash of
    word [j / 8]. *)
Definition random_cell (seed j : Z) : Z :=
  Z.b2z (Z.testbit (hash_at seed (Datatypes.S (Z.to_nat (j `div` 8)))) (8 * (j `mod` 8))).

Definition random_cells (num_words seed : Z) : list Z :=
  random_cell seed <$> seqZ 0 (8 * num_words).

(** The grid a run starts from. *)
Definition first_grid (e : env) (c : config) : list Z :=
  take (Z.to_nat (height c * width c))
    (random_cells (buffer_area (height c) (width c) `div` 8) (u64 (rand_value e))).

(** The loop of [main] in terms of generations: [n] iterations are left,
    [j] frames were written, [g] is the generation to show and [gprev] the
    one shown before it. *)
Fixpoint run_trace (n : nat) (e : env) (c : config) (j : nat)
    (g gprev : list Z) : list event :=
  match n with
  | O => []
  | Datatypes.S n =>
      if status_sigint e j then [Stdout_reset_font]
      else
        Stdout_clear
        :: Stdout_draw_buffer
             (Encoder.render_frame (tokens c) g gprev (height c) (width c))
        :: Stdout_reset_font
        :: Stdout_gen (Z.of_nat j + 1)
        :: pause (max_fps c)
        ++ run_trace n e c (Datatypes.S j)
             (Stepper.step_grid (height c) (width c) g) g
  end.

(** The frames of a trace, with their generation numbers: each draw
    buffer written, with the generation line that follows its font
    reset. *)
Fixpoint frames (tr : list event) : list (list Z * Z) :=
  match tr with
  | Stdout_draw_buffer db :: tr =>
      match tr with
      | Stdout_reset_font :: Stdout_gen g :: _ => (db, g) :: frames tr
      | _ => frames tr
      end
  | _ :: tr => frames tr
  | [] => []
  end.




End Driver.

(** ** Buffers: reading, writing and loops *)

Section buffers.

Lemma rd_lookup (buf : list Z) (i : nat) (v : Z) :
  buf !! i = Some v → rd buf (Z.of_nat i) = v.
Proof.
  intros H. unfold rd.
  destruct (Z.ltb_spec (Z.of_nat i) 0) as [?|_]; [lia|].
  by rewrite Nat2Z.id, H.
Qed.

Lemma rd_binary (buf : list Z) (i : Z) :
  binary buf → rd buf i = 0 ∨ rd buf i = 1.
Proof.
  intros Hb. unfold rd. destruct (i <? 0); [by left|].
  destruct (buf !! Z.to_nat i) as [v|] eqn:E; [|by left].
  simpl. by apply (Forall_lookup_1 _ _ _ _ Hb E).
Qed.

Lemma length_wr (buf : list Z) i v : length (wr buf i v) = length buf.
Proof. unfold wr. destruct (i <? 0); [done|]. apply length_insert. Qed.

Lemma lookup_wr (buf : list Z) i v (k : nat) :
  wr buf i v !! k =
    if decide (i = Z.of_nat k ∧ (k < length buf)%nat) then Some v else buf !! k.
Proof.
  unfold wr. destruct (Z.ltb_spec i 0).
  - case_decide; [lia|done].
  - case_decide as Hd.
    + destruct Hd as [-> ?]. rewrite Nat2Z.id. by apply list_lookup_insert_eq.
    + destruct (decide (Z.to_nat i = k)) as [<-|Hne].
      * rewrite list_insert_ge; [done|]. lia.
      * by apply list_lookup_insert_ne.
Qed.

Lemma for_range_nil {S : Type} lo hi (body : Z → S → S) s :
  hi ≤ lo → for_range lo hi body s = s.
Proof. intros H. unfold for_range. by rewrite seqZ_nil by lia. Qed.

Lemma for_range_snoc {S : Type} lo hi (body : Z → S → S) s :
  lo ≤ hi → for_range lo (hi + 1) body s = body hi (for_range lo hi body s).
Proof.
  intros H. unfold for_range.
  replace (hi + 1 - lo) with (Z.of_nat (Datatypes.S (Z.to_nat (hi - lo)))) by lia.
  rewrite seqZ_S, foldl_app. simpl.
  rewrite Z2Nat.id by lia. by replace (lo + (hi - lo)) with hi by lia.
Qed.

(** Induction over the iterations of a loop from [lo] to [hi]. *)
Lemma for_range_ind {S : Type} (P : Z → S → Prop) lo hi (body : Z → S → S) s :
  P lo s →
  (∀ i t, lo ≤ i < hi → P i t → P (i + 1) (body i t)) →
  lo ≤ hi → P hi (for_range lo hi body s).
Proof.
  intros H0 Hstep Hhi.
  assert (∀ n : nat, lo + Z.of_nat n ≤ hi →
    P (lo + Z.of_nat n) (for_range lo (lo + Z.of_nat n) body s)) as Hn.
  { induction n as [|n IH]; intros Hle.
    - rewrite Z.add_0_r, for_range_nil by lia. done.
    - replace (lo + Z.of_nat (Datatypes.S n)) with (lo + Z.of_nat n + 1) by lia.
      rewrite for_range_snoc by lia. apply Hstep; [lia|]. apply IH. lia. }
  specialize (Hn (Z.to_nat (hi - lo))).
  replace (lo + Z.of_nat (Z.to_nat (hi - lo))) with hi in Hn by lia.
  apply Hn. lia.
Qed.

(** A loop that stores [g k] at [base + k] for every [k] below [n]. *)
Lemma fill_run_lookup (g : Z → Z) base n (buf : list Z) :
  0 ≤ base → 0 ≤ n →
  let out := for_range 0 n (λ k b, wr b (base + k) (g k)) buf in
  length out = length buf ∧
  ∀ i : nat, out !! i =
    if decide (base ≤ Z.of_nat i < base + n ∧ (i < length buf)%nat)
    then Some (g (Z.of_nat i - base)) else buf !! i.
Proof.
  intros Hb Hn. simpl.
  set (P := λ (m : Z) (out : list Z), length out = length buf ∧
    ∀ i : nat, out !! i =
      if decide (base ≤ Z.of_nat i < base + m ∧ (i < length buf)%nat)
      then Some (g (Z.of_nat i - base)) else buf !! i).
  change (P n (for_range 0 n (λ k b, wr b (base + k) (g k)) buf)).
  apply for_range_ind; [| |done]; unfold P.
  - split; [done|]. intros i. case_decide; [lia|done].
  - intros m t Hm [Hlen Hlk]. split; [by rewrite length_wr|].
    intros i. rewrite lookup_wr, Hlk, Hlen.
    repeat case_decide; try done; try lia.
    do 2 f_equal. lia.
Qed.

End buffers.

(** ** The stepper writes every cell of the grid, and only those *)

Section stepper.
Import Stepper.

Lemma slong_of_uint_small u : 0 ≤ u < 2 ^ 63 → slong_of_uint u = u.
Proof.
  intros H. unfold slong_of_uint.
  destruct (Z.ltb_spec u (2 ^ 63)); [done|lia].
Qed.

Lemma row_col_of_index w m i :
  0 < w → m * w ≤ i < (m + 1) * w → i `div` w = m ∧ i `mod` w = i - m * w.
Proof.
  intros Hw Hi.
  assert (i `div` w = m) as Hd.
  { symmetry. apply (Z.div_unique_pos i w m (i - m * w)); lia. }
  split; [done|]. rewrite Z.mod_eq by lia. rewrite Hd. lia.
Qed.

Lemma do_gen_naive_lookup height width (dst src : list Z) :
  0 < height < 2 ^ 63 → 0 < width < 2 ^ 63 →
  length (do_gen_naive dst src height width) = length dst ∧
  ∀ i : nat, do_gen_naive dst src height width !! i =
    if decide (Z.of_nat i < height * width ∧ (i < length dst)%nat)
    then Some (next_cell src height width (Z.of_nat i `div` width) (Z.of_nat i `mod` width))
    else dst !! i.
Proof.
  intros Hh Hw. unfold do_gen_naive.
  rewrite !slong_of_uint_small by lia.
  set (body := λ (y : Z) (d : list Z),
    for_range 0 width (λ x d, wr d (y * width + x) (next_cell src height width y x)) d).
  set (P := λ (m : Z) (out : list Z), length out = length dst ∧
    ∀ i : nat, out !! i =
      if decide (Z.of_nat i < m * width ∧ (i < length dst)%nat)
      then Some (next_cell src height width (Z.of_nat i `div` width) (Z.of_nat i `mod` width))
      else dst !! i).
  change (P height (for_range 0 height body dst)).
  apply for_range_ind; [| |lia]; unfold P.
  - split; [done|]. intros i. case_decide; [lia|done].
  - intros m t Hm [Hlen Hlk]. unfold body.
    destruct (fill_run_lookup (next_cell src height width m) (m * width) width t)
      as [Hlen' Hlk']; [nia|lia|].
    split; [congruence|].
    intros i. rewrite Hlk', Hlk, Hlen.
    destruct (decide (m * width ≤ Z.of_nat i < m * width + width ∧ (i < length dst)%nat))
      as [[Hi ?]|Hn].
    + destruct (row_col_of_index width m (Z.of_nat i)) as [-> ->]; [lia|lia|].
      rewrite decide_True by lia. done.
    + repeat case_decide; try done; lia.
Qed.

Lemma char_wrap_small z : -128 ≤ z < 128 → char_wrap z = z.
Proof. intros H. unfold char_wrap. rewrite Z.mod_small; lia. Qed.

Lemma live_count_unfold src h w y x :
  live_count src h w y x =
  let cell dy dx := rd src (wrap_index h w y x dy dx) in
  char_wrap (char_wrap (char_wrap (char_wrap (char_wrap (char_wrap (char_wrap
    (char_wrap (char_wrap (0 + cell (-1) (-1)) + cell (-1) 0) + cell (-1) 1)
    + cell 0 (-1)) + cell 0 0) + cell 0 1)
    + cell 1 (-1)) + cell 1 0) + cell 1 1).
Proof. reflexivity. Qed.

Lemma wrap_index_mod h w y x dy dx :
  0 < h → 0 < w → 0 ≤ y → 0 ≤ x → -1 ≤ dy → -1 ≤ dx →
  wrap_index h w y x dy dx = ((y + dy + h) mod h) * w + ((x + dx + w) mod w).
Proof.
  intros. unfold wrap_index.
  rewrite !Z.rem_mod_nonneg by lia.
  by replace (dy + y + h) with (y + dy + h) by lia;
     replace (dx + x + w) with (x + dx + w) by lia.
Qed.

(** The indices read by the scan stay inside an [h * w] grid. *)
Lemma wrap_index_in_range h w y x dy dx :
  0 < h → 0 < w → 0 ≤ y → 0 ≤ x → -1 ≤ dy → -1 ≤ dx →
  0 ≤ wrap_index h w y x dy dx < h * w.
Proof.
  intros. rewrite wrap_index_mod by lia.
  pose proof (Z.mod_pos_bound (y + dy + h) h ltac:(lia)).
  pose proof (Z.mod_pos_bound (x + dx + w) w ltac:(lia)).
  nia.
Qed.

(** On a binary grid the [char] accumulator never wraps. *)
Lemma live_count_binary src h w y x :
  binary src → 0 < h → 0 < w → 0 ≤ y → 0 ≤ x →
  live_count src h w y x = window_sum src h w y x.
Proof.
  intros Hb Hh Hw Hy Hx. rewrite live_count_unfold. unfold window_sum. cbv zeta.
  rewrite !wrap_index_mod by lia.
  repeat match goal with
  | |- context [rd src ?i] =>
      let v := fresh "v" in
      let Hv := fresh "Hv" in
      pose proof (rd_binary src i Hb) as Hv;
      generalize dependent (rd src i); intros v Hv
  end.
  repeat match goal with
  | |- context [char_wrap ?z] => rewrite (char_wrap_small z) by lia
  end.
  lia.
Qed.

Lemma window_sum_range src h w y x :
  binary src → 0 ≤ window_sum src h w y x ≤ 9.
Proof.
  intros Hb. unfold window_sum. cbv zeta.
  repeat match goal with
  | |- context [rd src ?i] =>
      let v := fresh "v" in
      let Hv := fresh "Hv" in
      pose proof (rd_binary src i Hb) as Hv;
      generalize dependent (rd src i); intros v Hv
  end.
  lia.
Qed.

Lemma window_sum_neighbours8 src h w y x :
  0 < h → 0 < w → 0 ≤ y < h → 0 ≤ x < w →
  window_sum src h w y x = neighbours8 src h w y x + rd src (y * w + x).
Proof.
  intros Hh Hw Hy Hx. unfold window_sum, neighbours8. cbv zeta.
  assert (((y + 0 + h) mod h) * w + (x + 0 + w) mod w = y * w + x) as ->; [|lia].
  replace (y + 0 + h) with (y + 1 * h) by lia.
  replace (x + 0 + w) with (x + 1 * w) by lia.
  rewrite !Z.mod_add, !Z.mod_small by lia. done.
Qed.

(** The stored value, as a case distinction on the self-inclusive count. *)
Lemma next_cell_binary src h w y x :
  binary src → 0 < h → 0 < w → 0 ≤ y → 0 ≤ x →
  let c := window_sum src h w y x in
  next_cell src h w y x =
    if decide (c = 3 ∨ (c = 4 ∧ rd src (y * w + x) = 1)) then 1 else 0.
Proof.
  intros Hb Hh Hw Hy Hx. cbv zeta. unfold next_cell. cbv zeta.
  rewrite live_count_binary by done.
  generalize (window_sum src h w y x). intros c.
  destruct (rd_binary src (y * w + x) Hb) as [-> | ->];
    destruct (Z.eqb_spec c 3), (Z.eqb_spec c 4); simpl;
    case_decide; try done; lia.
Qed.

Lemma next_cell_range src h w y x :
  next_cell src h w y x = 0 ∨ next_cell src h w y x = 1.
Proof. unfold next_cell. cbv zeta. destruct (negb _); simpl; auto. Qed.

Lemma lookup_fmap_seqZ (f : Z → Z) n (i : nat) :
  (f <$> seqZ 0 n) !! i = if decide (Z.of_nat i < n) then Some (f (Z.of_nat i)) else None.
Proof.
  rewrite list_lookup_fmap. case_decide.
  - by rewrite lookup_seqZ_lt by lia.
  - by rewrite lookup_seqZ_ge by lia.
Qed.

Lemma rd_fmap_seqZ (f : Z → Z) n i :
  0 ≤ i < n → rd (f <$> seqZ 0 n) i = f i.
Proof.
  intros H. unfold rd. destruct (Z.ltb_spec i 0); [lia|].
  rewrite lookup_fmap_seqZ, decide_True by lia. simpl. f_equal. lia.
Qed.

Lemma index_row_col w y x :
  0 < w → 0 ≤ x < w → (y * w + x) `div` w = y ∧ (y * w + x) `mod` w = x.
Proof.
  intros Hw Hx.
  destruct (row_col_of_index w y (y * w + x)) as [-> ->]; [lia|lia|].
  split; lia.
Qed.

(** On a buffer of exactly [height * width] cells the step is the map of
    [next_cell] over the grid. *)
Lemma do_gen_naive_grid height width (dst src : list Z) :
  0 < height < 2 ^ 63 → 0 < width < 2 ^ 63 →
  Z.of_nat (length dst) = height * width →
  do_gen_naive dst src height width =
    (λ i, next_cell src height width (i `div` width) (i `mod` width))
      <$> seqZ 0 (height * width).
Proof.
  intros Hh Hw Hlen. apply list_eq. intros i.
  destruct (do_gen_naive_lookup height width dst src Hh Hw) as [_ ->].
  rewrite lookup_fmap_seqZ.
  destruct (decide (Z.of_nat i < height * width)).
  - rewrite decide_True by lia. done.
  - rewrite decide_False by lia. apply lookup_ge_None. lia.
Qed.

Lemma next_cell_conway src h w y x :
  binary src → 0 < h → 0 < w → 0 ≤ y < h → 0 ≤ x < w →
  next_cell src h w y x = conway_cell src h w y x.
Proof.
  intros Hb Hh Hw Hy Hx.
  rewrite next_cell_binary by (done || lia). cbv zeta.
  rewrite window_sum_neighbours8 by done.
  unfold conway_cell. cbv zeta.
  generalize (neighbours8 src h w y x). intros n.
  destruct (rd_binary src (y * w + x) Hb) as [-> | ->]; simpl;
    destruct (Z.eqb_spec n 3), (Z.eqb_spec n 2); simpl;
    case_decide; try done; lia.
Qed.

Lemma div_mod_in_grid h w i :
  0 < w → 0 ≤ i < h * w → 0 ≤ i `div` w < h ∧ 0 ≤ i `mod` w < w.
Proof.
  intros Hw Hi. split; [|by apply Z.mod_pos_bound].
  split; [apply Z.div_pos; lia|]. apply Z.div_lt_upper_bound; lia.
Qed.

End stepper.

(** ** The rule of the stepper *)

Section stepper_rule.
Import Stepper.

(** C1: on a positive [height] by [width] binary grid, [do_gen_naive]
    stores 1 at cell (x, y) exactly when the self-inclusive 3x3 count
    taken at the wrapped indices is 3, or is 4 with the centre cell alive,
    and stores 0 in every other case. *)
Theorem do_gen_naive_self_inclusive_rule height width (dst src : list Z) y x :
  0 < height < 2 ^ 63 → 0 < width < 2 ^ 63 →
  binary src →
  height * width ≤ Z.of_nat (length src) →
  height * width ≤ Z.of_nat (length dst) →
  0 ≤ y < height → 0 ≤ x < width →
  let c := window_sum src height width y x in
  do_gen_naive dst src height width !! Z.to_nat (y * width + x) =
    Some (if decide (c = 3 ∨ (c = 4 ∧ rd src (y * width + x) = 1)) then 1 else 0).
Proof.
  intros Hh Hw Hb Hsrc Hdst Hy Hx c.
  destruct (do_gen_naive_lookup height width dst src Hh Hw) as [_ ->].
  rewrite Z2Nat.id by nia.
  rewrite decide_True by nia.
  destruct (index_row_col width y x) as [-> ->]; [lia|lia|].
  f_equal. apply next_cell_binary; (done || lia).
Qed.

Lemma do_gen_naive_self_inclusive_rule_witness :
  let src := [0; 0; 0; 0;  0; 1; 1; 0;  0; 0; 1; 0] in
  let c := window_sum src 3 4 1 2 in
  do_gen_naive (replicate 12 0) src 3 4 !! Z.to_nat (1 * 4 + 2) =
    Some (if decide (c = 3 ∨ (c = 4 ∧ rd src (1 * 4 + 2) = 1)) then 1 else 0).
Proof.
  intros src.
  apply (do_gen_naive_self_inclusive_rule 3 4 (replicate 12 0) src 1 2);
    [lia | lia | | simpl; lia | simpl; lia | lia | lia].
  unfold binary, src. repeat constructor; lia.
Defined.

(** C2: on a positive binary grid the step is the conventional Game of
    Life step on the torus: a cell is alive afterwards exactly when it was
    dead with 3 live cells among its eight wrapped neighbours, or alive
    with 2 or 3. *)
Theorem do_gen_naive_is_conway_step height width (dst src : list Z) :
  0 < height < 2 ^ 63 → 0 < width < 2 ^ 63 →
  binary src →
  Z.of_nat (length src) = height * width →
  Z.of_nat (length dst) = height * width →
  do_gen_naive dst src height width = conway_step src height width.
Proof.
  intros Hh Hw Hb Hsrc Hdst.
  rewrite do_gen_naive_grid by done. unfold conway_step.
  apply list_eq. intros i. rewrite !lookup_fmap_seqZ.
  case_decide; [|done]. f_equal.
  destruct (div_mod_in_grid height width (Z.of_nat i)); [lia|lia|].
  apply next_cell_conway; (done || lia).
Qed.

Lemma do_gen_naive_is_conway_step_witness :
  let src := [0; 1; 0;  0; 1; 0;  0; 1; 0] in
  do_gen_naive (replicate 9 0) src 3 3 = conway_step src 3 3.
Proof.
  intros src.
  apply (do_gen_naive_is_conway_step 3 3 (replicate 9 0) src);
    [lia | lia | | reflexivity | reflexivity].
  unfold binary, src. repeat constructor; lia.
Defined.

(** C6: for positive dimensions the step keeps the size of the
    destination buffer, stores 0 or 1 in each of the [height * width]
    cells at the row-major index [y * width + x], and stores nothing
    beyond them. *)
Theorem do_gen_naive_dimensions_and_cells height width (dst src : list Z) :
  0 < height < 2 ^ 63 → 0 < width < 2 ^ 63 →
  height * width ≤ Z.of_nat (length src) →
  height * width ≤ Z.of_nat (length dst) →
  let out := do_gen_naive dst src height width in
  length out = length dst ∧
  (∀ y x, 0 ≤ y < height → 0 ≤ x < width →
     out !! Z.to_nat (y * width + x) = Some 0 ∨
     out !! Z.to_nat (y * width + x) = Some 1) ∧
  (∀ i : nat, height * width ≤ Z.of_nat i → out !! i = dst !! i).
Proof.
  intros Hh Hw Hsrc Hdst out.
  destruct (do_gen_naive_lookup height width dst src Hh Hw) as [Hlen Hlk].
  split; [done|]. split.
  - intros y x Hy Hx. unfold out. rewrite Hlk.
    rewrite Z2Nat.id by nia. rewrite decide_True by nia.
    destruct (next_cell_range src height width
                ((y * width + x) `div` width) ((y * width + x) `mod` width))
      as [-> | ->]; auto.
  - intros i Hi. unfold out. rewrite Hlk. by rewrite decide_False by lia.
Qed.

Lemma do_gen_naive_dimensions_and_cells_witness :
  let out := do_gen_naive [5; 5; 5; 5; 5; 5; 5; 5] [1; 1; 0; 1; 1; 0; 0; 0] 2 3 in
  length out = 8%nat ∧
  (∀ y x, 0 ≤ y < 2 → 0 ≤ x < 3 →
     out !! Z.to_nat (y * 3 + x) = Some 0 ∨ out !! Z.to_nat (y * 3 + x) = Some 1) ∧
  (∀ i : nat, 2 * 3 ≤ Z.of_nat i → out !! i = [5; 5; 5; 5; 5; 5; 5; 5] !! i).
Proof.
  apply (do_gen_naive_dimensions_and_cells 2 3
           [5; 5; 5; 5; 5; 5; 5; 5] [1; 1; 0; 1; 1; 0; 0; 0]);
    [lia | lia | simpl; lia | simpl; lia].
Defined.

End stepper_rule.

(** ** The 2x2 block is a still life *)

Section block.
Import Stepper.

Lemma wrap_pred n y :
  0 ≤ y < n → (y + -1 + n) `mod` n = if y =? 0 then n - 1 else y - 1.
Proof.
  intros H. destruct (Z.eqb_spec y 0) as [-> | ?].
  - rewrite Z.mod_small; lia.
  - replace (y + -1 + n) with (y - 1 + 1 * n) by lia.
    rewrite Z.mod_add, Z.mod_small; lia.
Qed.

Lemma wrap_self n y : 0 ≤ y < n → (y + 0 + n) `mod` n = y.
Proof.
  intros H. replace (y + 0 + n) with (y + 1 * n) by lia.
  rewrite Z.mod_add, Z.mod_small; lia.
Qed.

Lemma wrap_succ n y :
  0 ≤ y < n → (y + 1 + n) `mod` n = if y =? n - 1 then 0 else y + 1.
Proof.
  intros H. destruct (Z.eqb_spec y (n - 1)) as [-> | ?].
  - replace (n - 1 + 1 + n) with (0 + 2 * n) by lia.
    rewrite Z.mod_add, Z.mod_small; lia.
  - replace (y + 1 + n) with (y + 1 + 1 * n) by lia.
    rewrite Z.mod_add, Z.mod_small; lia.
Qed.

(** Along one axis of length at least 4, the three wrapped coordinates
    around [y] meet the block at most twice, and twice when [y] is on it. *)
Lemma axis_sum n r y :
  4 ≤ n → 0 ≤ r → r + 1 < n → 0 ≤ y < n →
  let s := on_axis r ((y + -1 + n) `mod` n) + on_axis r ((y + 0 + n) `mod` n)
           + on_axis r ((y + 1 + n) `mod` n) in
  0 ≤ s ≤ 2 ∧ (on_axis r y = 1 → s = 2).
Proof.
  intros Hn Hr Hr1 Hy. cbv zeta.
  rewrite wrap_pred, wrap_self, wrap_succ by lia.
  unfold on_axis, c_bool.
  destruct (Z.eqb_spec y 0), (Z.eqb_spec y (n - 1));
    repeat match goal with
    | |- context [?a <=? ?b] => destruct (Z.leb_spec a b)
    end; simpl; lia.
Qed.

Lemma rd_block_grid h w r c y x :
  0 < w → 0 ≤ y < h → 0 ≤ x < w →
  rd (block_grid h w r c) (y * w + x) = on_axis r y * on_axis c x.
Proof.
  intros Hw Hy Hx. unfold block_grid.
  rewrite rd_fmap_seqZ by nia.
  destruct (index_row_col w y x) as [-> ->]; [lia|lia|].
  unfold in_block, on_axis, c_bool.
  by destruct ((r <=? y) && (y <=? r + 1)), ((c <=? x) && (x <=? c + 1)).
Qed.

Lemma binary_block_grid h w r c : binary (block_grid h w r c).
Proof.
  unfold binary, block_grid. apply Forall_fmap, Forall_true.
  intros i. simpl. unfold c_bool. destruct (in_block _ _ _ _); auto.
Qed.

Lemma length_block_grid h w r c :
  0 ≤ h * w → Z.of_nat (length (block_grid h w r c)) = h * w.
Proof. intros H. unfold block_grid. rewrite length_fmap, length_seqZ. lia. Qed.

Lemma window_sum_block_grid h w r c y x :
  0 < h → 0 < w → 0 ≤ y < h → 0 ≤ x < w →
  window_sum (block_grid h w r c) h w y x =
    (on_axis r ((y + -1 + h) `mod` h) + on_axis r ((y + 0 + h) `mod` h)
     + on_axis r ((y + 1 + h) `mod` h))
    * (on_axis c ((x + -1 + w) `mod` w) + on_axis c ((x + 0 + w) `mod` w)
       + on_axis c ((x + 1 + w) `mod` w)).
Proof.
  intros Hh Hw Hy Hx. unfold window_sum. cbv zeta.
  pose proof (Z.mod_pos_bound (y + -1 + h) h Hh).
  pose proof (Z.mod_pos_bound (y + 0 + h) h Hh).
  pose proof (Z.mod_pos_bound (y + 1 + h) h Hh).
  pose proof (Z.mod_pos_bound (x + -1 + w) w Hw).
  pose proof (Z.mod_pos_bound (x + 0 + w) w Hw).
  pose proof (Z.mod_pos_bound (x + 1 + w) w Hw).
  rewrite !rd_block_grid by lia. ring.
Qed.

(** C7: on a grid at least 4 high and 4 wide that is dead except for one
    2x2 block lying inside the grid (rows [r], [r + 1] and columns [c],
    [c + 1], none wrapping an edge), the step gives back the source grid. *)
Theorem block_is_still_life height width r c (dst : list Z) :
  4 ≤ height < 2 ^ 63 → 4 ≤ width < 2 ^ 63 →
  0 ≤ r → r + 1 < height → 0 ≤ c → c + 1 < width →
  Z.of_nat (length dst) = height * width →
  do_gen_naive dst (block_grid height width r c) height width =
    block_grid height width r c.
Proof.
  intros Hh Hw Hr Hr1 Hc Hc1 Hdst.
  rewrite do_gen_naive_grid by (done || lia).
  unfold block_grid at 2. apply list_eq. intros i. rewrite !lookup_fmap_seqZ.
  case_decide as Hi; [|done]. f_equal.
  destruct (div_mod_in_grid height width (Z.of_nat i)) as [Hy Hx]; [lia|lia|].
  set (y := Z.of_nat i `div` width) in *. set (x := Z.of_nat i `mod` width) in *.
  rewrite next_cell_binary by (apply binary_block_grid || lia). cbv zeta.
  rewrite window_sum_block_grid, rd_block_grid by lia.
  destruct (axis_sum height r y) as [Hrs Hrs2]; [lia..|].
  destruct (axis_sum width c x) as [Hcs Hcs2]; [lia..|].
  revert Hrs Hrs2 Hcs Hcs2.
  generalize (on_axis r ((y + -1 + height) `mod` height)
              + on_axis r ((y + 0 + height) `mod` height)
              + on_axis r ((y + 1 + height) `mod` height)).
  generalize (on_axis c ((x + -1 + width) `mod` width)
              + on_axis c ((x + 0 + width) `mod` width)
              + on_axis c ((x + 1 + width) `mod` width)).
  intros cs rs Hrs Hrs2 Hcs Hcs2.
  assert (in_block r c y x = (on_axis r y =? 1) && (on_axis c x =? 1)) as ->.
  { unfold in_block, on_axis, c_bool.
    by destruct ((r <=? y) && (y <=? r + 1)), ((c <=? x) && (x <=? c + 1)). }
  assert (on_axis r y = 0 ∨ on_axis r y = 1) as Hry.
  { unfold on_axis, c_bool. destruct (_ && _); auto. }
  assert (on_axis c x = 0 ∨ on_axis c x = 1) as Hcx.
  { unfold on_axis, c_bool. destruct (_ && _); auto. }
  assert (rs = 0 ∨ rs = 1 ∨ rs = 2) as Hrv by lia.
  assert (cs = 0 ∨ cs = 1 ∨ cs = 2) as Hcv by lia.
  destruct Hry as [Hry | Hry], Hcx as [Hcx | Hcx]; rewrite ?Hry, ?Hcx in *; simpl;
    case_decide as Hd; try done; exfalso;
    destruct Hrv as [-> | [-> | ->]], Hcv as [-> | [-> | ->]]; lia.
Qed.

Lemma block_is_still_life_witness :
  do_gen_naive (replicate 20 0) (block_grid 4 5 1 2) 4 5 = block_grid 4 5 1 2.
Proof.
  apply (block_is_still_life 4 5 1 2 (replicate 20 0));
    [lia | lia | lia | lia | lia | lia | reflexivity].
Defined.

End block.

(** ** The frame encoder writes the colour slots, and only those *)

Section encoder.
Import Encoder.

Variables (toks active prev : list Z).

(** The inner loop started at word [p] and cell [k], after [n] cells. *)
Lemma fill_cells_lookup n (db : list Z) p k :
  0 ≤ p → 0 ≤ n →
  ∃ out, for_range 0 n (λ _ st, fill_cell toks active prev st) (db, p, k)
           = (out, p + 3 * n, k + n) ∧
    length out = length db ∧
    (∀ x, 0 ≤ x < n → p + 3 * x < Z.of_nat (length db) →
       out !! Z.to_nat (p + 3 * x) = Some (cell_token toks active prev (k + x))) ∧
    (∀ i : nat, (∀ x, 0 ≤ x < n → Z.of_nat i ≠ p + 3 * x) → out !! i = db !! i).
Proof.
  intros Hp Hn.
  set (P := λ (m : Z) (st : list Z * Z * Z), ∃ out, st = (out, p + 3 * m, k + m) ∧
    length out = length db ∧
    (∀ x, 0 ≤ x < m → p + 3 * x < Z.of_nat (length db) →
       out !! Z.to_nat (p + 3 * x) = Some (cell_token toks active prev (k + x))) ∧
    (∀ i : nat, (∀ x, 0 ≤ x < m → Z.of_nat i ≠ p + 3 * x) → out !! i = db !! i)).
  change (P n (for_range 0 n (λ _ st, fill_cell toks active prev st) (db, p, k))).
  apply for_range_ind; [| |done]; unfold P.
  - exists db. split; [f_equal; [f_equal|]; lia|]. split; [done|]. split; [lia|done].
  - intros m st Hm (out & -> & Hlen & Hget & Hframe).
    exists (wr out (p + 3 * m) (cell_token toks active prev (k + m))).
    split; [unfold fill_cell, cell_token; f_equal; [f_equal|]; lia|].
    split; [by rewrite length_wr|]. split.
    + intros x Hx Hin. rewrite lookup_wr, Hlen.
      destruct (decide (x = m)) as [-> | Hne].
      * rewrite decide_True by lia. done.
      * rewrite decide_False by lia. apply Hget; lia.
    + intros i Hi. rewrite lookup_wr.
      rewrite decide_False by (intros [? _]; by apply (Hi m); [lia|]).
      apply Hframe. intros x Hx. apply Hi. lia.
Qed.

Lemma fill_draw_buffer_lookup (db : list Z) height width :
  0 ≤ height → 0 ≤ width →
  let out := fill_draw_buffer_4bit_color toks db active prev height width in
  length out = length db ∧
  (∀ y x, 0 ≤ y < height → 0 ≤ x < width →
     word_of width y x < Z.of_nat (length db) →
     out !! Z.to_nat (word_of width y x) = Some (cell_token toks active prev (y * width + x))) ∧
  (∀ i : nat, (∀ y x, 0 ≤ y < height → 0 ≤ x < width → Z.of_nat i ≠ word_of width y x) →
     out !! i = db !! i).
Proof.
  intros Hh Hw. cbv zeta. unfold fill_draw_buffer_4bit_color.
  set (P := λ (m : Z) (st : list Z * Z * Z), ∃ out,
    st = (out, 1 + 3 * (width + 1) * m, width * m) ∧
    length out = length db ∧
    (∀ y x, 0 ≤ y < m → 0 ≤ x < width →
       word_of width y x < Z.of_nat (length db) →
       out !! Z.to_nat (word_of width y x) = Some (cell_token toks active prev (y * width + x))) ∧
    (∀ i : nat, (∀ y x, 0 ≤ y < m → 0 ≤ x < width → Z.of_nat i ≠ word_of width y x) →
       out !! i = db !! i)).
  assert (P height (for_range 0 height
            (λ _ st, fill_row toks active prev width st) (db, 1, 0))) as Hfin.
  { apply for_range_ind; [| |done]; unfold P.
    - exists db. split; [f_equal; [f_equal|]; lia|]. split; [done|]. split; [lia|done].
    - intros m st Hm (out & -> & Hlen & Hget & Hframe). unfold fill_row.
      destruct (fill_cells_lookup width out (1 + 3 * (width + 1) * m) (width * m))
        as (out' & -> & Hlen' & Hget' & Hframe'); [nia|lia|].
      exists out'. split; [f_equal; [f_equal|]; lia|].
      split; [congruence|]. split.
      + intros y x Hy Hx Hin. destruct (decide (y = m)) as [-> | Hne].
        * replace (word_of width m x) with (1 + 3 * (width + 1) * m + 3 * x)
            by (unfold word_of; lia).
          rewrite Hget' by (rewrite ?Hlen; unfold word_of in Hin; lia).
          f_equal. f_equal. lia.
        * rewrite Hframe'; [apply Hget; lia|].
          intros x' Hx'. rewrite Z2Nat.id by (unfold word_of; nia).
          unfold word_of. nia.
      + intros i Hi. rewrite Hframe'.
        * apply Hframe. intros y x Hy Hx. apply Hi; lia.
        * intros x Hx Heq. apply (Hi m x); [lia|lia|]. unfold word_of. lia. }
  destruct Hfin as (out & -> & Hlen & Hget & Hframe). done.
Qed.

End encoder.

(** ** The tokens of a frame and its scaffolding *)

Section frame.
Import Encoder.

Lemma slot_word_of width i :
  0 < width → slot width i = word_of width (i `div` width) (i `mod` width).
Proof.
  intros Hw. unfold slot, word_of.
  pose proof (Z.div_mod i width ltac:(lia)). lia.
Qed.

(** Byte [j] of the stream comes from word [j / 2]. *)
Lemma lookup_draw_bytes (db : list Z) (j : nat) :
  draw_bytes db !! j = db !! (j / 2)%nat ≫= λ v, u16_bytes v !! (j mod 2)%nat.
Proof.
  revert j. induction db as [|v db IH]; intros j; [done|].
  destruct j as [|[|j]]; [done|done|].
  change (draw_bytes (v :: db) !! Datatypes.S (Datatypes.S j)) with (draw_bytes db !! j).
  replace (Datatypes.S (Datatypes.S j)) with (j + 1 * 2)%nat by lia.
  rewrite Nat.div_add, Nat.Div0.mod_add by lia.
  replace (j / 2 + 1)%nat with (Datatypes.S (j / 2)) by lia.
  apply IH.
Qed.

(** A scaffolding byte does not lie in the word of any cell's colour code. *)
Lemma scaffold_byte_not_slot width (j : nat) y x :
  0 ≤ width → 0 ≤ y → 0 ≤ x < width →
  scaffold_byte width (Z.of_nat j) = true →
  Z.of_nat (j / 2) ≠ word_of width y x.
Proof.
  intros Hw Hy Hx Hs Heq. rewrite Nat2Z.inj_div in Heq. unfold word_of in Heq.
  assert ((y * (width + 1) + x) `mod` (width + 1) = x) as Hcol.
  { replace (y * (width + 1) + x) with (x + y * (width + 1)) by lia.
    rewrite Z.mod_add, Z.mod_small; lia. }
  revert Hcol Heq. generalize (y * (width + 1) + x). intros u Hcol Heq.
  assert (Z.of_nat j `div` 6 = u ∧ 2 ≤ Z.of_nat j `mod` 6 < 4) as [Hdiv Hmod].
  { change (Z.of_nat 2) with 2 in Heq.
    revert Heq. generalize (Z.of_nat j). intros J Heq.
    pose proof (Z.div_mod J 2 ltac:(lia)).
    pose proof (Z.mod_pos_bound J 2 ltac:(lia)).
    assert (J = u * 6 + (2 + J `mod` 2)) as HJ by lia.
    split.
    - symmetry. apply (Z.div_unique_pos J 6 u (2 + J `mod` 2)); lia.
    - pose proof (Z.mod_unique_pos J 6 u (2 + J `mod` 2) ltac:(lia) ltac:(lia)). lia. }
  unfold scaffold_byte in Hs. rewrite Hdiv, Hcol in Hs.
  destruct (Z.ltb_spec (Z.of_nat j `mod` 6) 2); [lia|].
  destruct (Z.leb_spec 4 (Z.of_nat j `mod` 6)); [lia|].
  destruct (Z.eqb_spec x width); [lia|]. done.
Qed.

(** The colour slot of cell [i] after the encoder has run. *)
Lemma fill_draw_buffer_slot (toks db current previous : list Z) height width i :
  0 ≤ height → 0 < width →
  Z.of_nat (length db) = 3 * (width + 1) * height →
  0 ≤ i < height * width →
  rd (fill_draw_buffer_4bit_color toks db current previous height width) (slot width i)
    = cell_token toks current previous i.
Proof.
  intros Hh Hw Hlen Hi.
  destruct (fill_draw_buffer_lookup toks current previous db height width)
    as (_ & Hget & _); [lia|lia|].
  destruct (div_mod_in_grid height width i) as [Hy Hx]; [lia|lia|].
  rewrite slot_word_of by lia.
  assert (0 ≤ word_of width (i `div` width) (i `mod` width) < Z.of_nat (length db)) as Hin.
  { unfold word_of. nia. }
  rewrite <- (Z2Nat.id (word_of _ _ _)) at 1 by lia.
  rewrite (rd_lookup _ _ _ (Hget _ _ Hy Hx ltac:(lia))).
  by replace (i `div` width * width + i `mod` width) with i
    by (pose proof (Z.div_mod i width ltac:(lia)); lia).
Qed.

(** C3 (as amended): [fill_draw_buffer_4bit_color] stores in the colour
    slot of every cell [i], row-major, the entry of the token table at
    index [(current[i] << 1) | previous[i]]; with the coloured table this
    shows 40 for dead to dead, 42 for dead to live, 41 for live to dead
    and 47 for live to live, and with the monochrome table 40 for dead to
    dead and 47 for live to live. *)
Theorem fill_draw_buffer_cell_tokens (toks db current previous : list Z) height width i :
  0 ≤ height → 0 ≤ width →
  binary current → binary previous →
  height * width ≤ Z.of_nat (length current) →
  height * width ≤ Z.of_nat (length previous) →
  Z.of_nat (length db) = 3 * (width + 1) * height →
  0 ≤ i < height * width →
  rd (fill_draw_buffer_4bit_color toks db current previous height width) (slot width i)
    = rd toks (Z.lor (Z.shiftl (rd current i) 1) (rd previous i))
  ∧ transition_code color_tokens_4bit 0 0 = "40"%string
  ∧ transition_code color_tokens_4bit 0 1 = "42"%string
  ∧ transition_code color_tokens_4bit 1 0 = "41"%string
  ∧ transition_code color_tokens_4bit 1 1 = "47"%string
  ∧ transition_code bw_tokens_4bit 0 0 = "40"%string
  ∧ transition_code bw_tokens_4bit 1 1 = "47"%string.
Proof.
  intros Hh Hw _ _ _ _ Hlen Hi. split; [|by repeat split].
  by rewrite fill_draw_buffer_slot by (done || nia).
Qed.

Lemma fill_draw_buffer_cell_tokens_witness :
  let db := init_draw_buffer (replicate 18 0) 2 2 in
  rd (fill_draw_buffer_4bit_color bw_tokens_4bit db [1; 0; 0; 1] [0; 1; 0; 0] 2 2) (slot 2 1)
    = rd bw_tokens_4bit (Z.lor (Z.shiftl (rd [1; 0; 0; 1] 1) 1) (rd [0; 1; 0; 0] 1))
  ∧ transition_code color_tokens_4bit 0 0 = "40"%string
  ∧ transition_code color_tokens_4bit 0 1 = "42"%string
  ∧ transition_code color_tokens_4bit 1 0 = "41"%string
  ∧ transition_code color_tokens_4bit 1 1 = "47"%string
  ∧ transition_code bw_tokens_4bit 0 0 = "40"%string
  ∧ transition_code bw_tokens_4bit 1 1 = "47"%string.
Proof.
  intros db.
  apply (fill_draw_buffer_cell_tokens bw_tokens_4bit db [1; 0; 0; 1] [0; 1; 0; 0] 2 2 1);
    [lia | lia | | | simpl; lia | simpl; lia | reflexivity | lia];
    unfold binary; repeat constructor; lia.
Defined.

(** *** The scaffolding written by the initialisation loop *)

Lemma length_init_draw_buffer (db : list Z) height width :
  0 ≤ height → 0 ≤ width →
  length (init_draw_buffer db height width) = length db.
Proof.
  intros Hh Hw. unfold init_draw_buffer.
  set (P := λ (_ : Z) (st : list Z * Z), length st.1 = length db).
  set (inner := λ (_ : Z) '(d, p), (init_unit d p 0x206D, p + 3)).
  assert (∀ st, length (for_range 0 width inner st).1 = length st.1) as Hinner.
  { intros st.
    apply (for_range_ind (λ _ st', length st'.1 = length st.1)); [done| |done].
    intros k [d p] _ Hd. simpl in *. unfold init_unit. by rewrite !length_wr. }
  apply (for_range_ind P); [done| |done]; unfold P.
  intros k st _ Hst. specialize (Hinner st).
  fold inner. destruct (for_range 0 width inner st) as [d p].
  simpl in *. unfold init_unit. rewrite !length_wr. congruence.
Qed.

Lemma init_unit_lookup (d : list Z) p suffix (i : nat) :
  0 ≤ p → p + 2 < Z.of_nat (length d) →
  init_unit d p suffix !! i =
    if decide (Z.of_nat i = p) then Some 0x5B1B
    else if decide (Z.of_nat i = p + 1) then Some 0x3030
    else if decide (Z.of_nat i = p + 2) then Some suffix
    else d !! i.
Proof.
  intros Hp Hlen. unfold init_unit. rewrite !lookup_wr, !length_wr.
  repeat case_decide; try done; lia.
Qed.

Lemma scaffold_word_unit width u o :
  0 ≤ u → 0 ≤ o < 3 →
  scaffold_word width (3 * u + o) =
    match o with
    | 0 => 0x5B1B
    | 1 => 0x3030
    | _ => if u `mod` (width + 1) =? width then 0x0A6D else 0x206D
    end.
Proof.
  intros Hu Ho. unfold scaffold_word.
  rewrite <- (Z.mod_unique_pos (3 * u + o) 3 u o) by lia.
  rewrite <- (Z.div_unique_pos (3 * u + o) 3 u o) by lia.
  done.
Qed.

(** Writing unit [u] extends the initialised prefix by three words. *)
Lemma init_unit_extends (d : list Z) width u suffix :
  0 ≤ u → 3 * u + 2 < Z.of_nat (length d) →
  suffix = (if u `mod` (width + 1) =? width then 0x0A6D else 0x206D) →
  (∀ i : nat, Z.of_nat i < 3 * u → d !! i = Some (scaffold_word width (Z.of_nat i))) →
  ∀ i : nat, Z.of_nat i < 3 * (u + 1) →
    init_unit d (3 * u) suffix !! i = Some (scaffold_word width (Z.of_nat i)).
Proof.
  intros Hu Hlen -> Hpre i Hi. rewrite init_unit_lookup by lia.
  repeat case_decide.
  - replace (Z.of_nat i) with (3 * u + 0) by lia. by rewrite scaffold_word_unit by lia.
  - replace (Z.of_nat i) with (3 * u + 1) by lia. by rewrite scaffold_word_unit by lia.
  - replace (Z.of_nat i) with (3 * u + 2) by lia. by rewrite scaffold_word_unit by lia.
  - apply Hpre. lia.
Qed.

Lemma init_draw_buffer_lookup (db : list Z) height width (i : nat) :
  0 ≤ height → 0 ≤ width →
  Z.of_nat (length db) = 3 * (width + 1) * height →
  Z.of_nat i < 3 * (width + 1) * height →
  init_draw_buffer db height width !! i = Some (scaffold_word width (Z.of_nat i)).
Proof.
  intros Hh Hw Hlen Hi. unfold init_draw_buffer.
  set (inv := λ (u : Z) (st : list Z * Z),
    st.2 = 3 * u ∧ length st.1 = length db ∧
    ∀ i : nat, Z.of_nat i < 3 * u → st.1 !! i = Some (scaffold_word width (Z.of_nat i))).
  set (inner := λ (_ : Z) '(d, p), (init_unit d p 0x206D, p + 3)).
  set (outer := λ (_ : Z) (st : list Z * Z),
    let '(d, p) := for_range 0 width inner st in (init_unit d p 0x0A6D, p + 3)).
  assert (inv ((width + 1) * height) (for_range 0 height outer (db, 0))) as (_ & _ & Hall).
  { set (P := λ (y : Z) st, inv ((width + 1) * y) st).
    change (P height (for_range 0 height outer (db, 0))).
    apply for_range_ind; [| |done]; unfold P.
    - split; [simpl; lia|]. split; [done|]. intros; lia.
    - intros y st Hy Hst. unfold outer.
      assert (inv ((width + 1) * y + width) (for_range 0 width inner st)) as Hrow.
      { set (Q := λ (x : Z) st', inv ((width + 1) * y + x) st').
        change (Q width (for_range 0 width inner st)).
        apply for_range_ind; [| |done]; unfold Q.
        - by rewrite Z.add_0_r.
        - intros x [d p] Hx (Hp & Hl & Hpre). simpl in *. subst p.
          unfold inv. simpl. split; [lia|]. split; [unfold init_unit; by rewrite !length_wr|].
          replace (3 * ((width + 1) * y + (x + 1)))
            with (3 * (((width + 1) * y + x) + 1)) by lia.
          apply init_unit_extends; [nia | nia | | done].
          replace ((width + 1) * y + x) with (x + y * (width + 1)) by lia.
          rewrite Z.mod_add, Z.mod_small by lia.
          destruct (Z.eqb_spec x width); [lia|done]. }
      destruct (for_range 0 width inner st) as [d p].
      destruct Hrow as (Hp & Hl & Hpre). simpl in *. subst p.
      destruct Hst as (_ & Hl0 & _).
      unfold inv. simpl. split; [lia|]. split; [unfold init_unit; by rewrite !length_wr|].
      replace (3 * ((width + 1) * (y + 1)))
        with (3 * (((width + 1) * y + width) + 1)) by lia.
      apply init_unit_extends; [nia | nia | | done].
      replace ((width + 1) * y + width) with (width + y * (width + 1)) by lia.
      rewrite Z.mod_add, Z.mod_small by lia.
      by rewrite Z.eqb_refl. }
  apply Hall. lia.
Qed.

(** The bytes of a scaffolding word are the scaffolding bytes. *)
Lemma scaffold_word_bytes width (j : nat) :
  u16_bytes (scaffold_word width (Z.of_nat (j / 2))) !! (j mod 2)%nat
    = Some (scaffold_value width (Z.of_nat j)).
Proof.
  rewrite Nat2Z.inj_div. change (Z.of_nat 2) with 2.
  assert (Z.of_nat (j mod 2) = Z.of_nat j `mod` 2) as Hb
    by (by rewrite Nat2Z.inj_mod).
  revert Hb. generalize (j mod 2)%nat. intros b Hb.
  assert (0 ≤ Z.of_nat j) as HJ by lia. revert HJ Hb.
  generalize (Z.of_nat j). intros J HJ Hb.
  unfold scaffold_value.
  pose proof (Z.div_mod J 6 ltac:(lia)) as H6.
  pose proof (Z.mod_pos_bound J 6 ltac:(lia)) as H6b.
  pose proof (Z.div_pos J 6 HJ ltac:(lia)) as Hu.
  revert H6 H6b Hu. generalize (J `div` 6) (J `mod` 6). intros u r H6 H6b Hu.
  assert (∀ q o, 0 ≤ o < 2 → r = 2 * q + o →
    J `div` 2 = 3 * u + q ∧ b = Z.to_nat o) as Hsplit.
  { intros q o Ho Hr.
    pose proof (Z.div_unique_pos J 2 (3 * u + q) o ltac:(lia) ltac:(lia)).
    pose proof (Z.mod_unique_pos J 2 (3 * u + q) o ltac:(lia) ltac:(lia)).
    lia. }
  assert (r = 0 ∨ r = 1 ∨ r = 2 ∨ r = 3 ∨ r = 4 ∨ r = 5)
    as [-> | [-> | [-> | [-> | [-> | ->]]]]] by lia.
  - destruct (Hsplit 0 0) as [-> ->]; [lia|lia|]. by rewrite scaffold_word_unit by lia.
  - destruct (Hsplit 0 1) as [-> ->]; [lia|lia|]. by rewrite scaffold_word_unit by lia.
  - destruct (Hsplit 1 0) as [-> ->]; [lia|lia|]. by rewrite scaffold_word_unit by lia.
  - destruct (Hsplit 1 1) as [-> ->]; [lia|lia|]. by rewrite scaffold_word_unit by lia.
  - destruct (Hsplit 2 0) as [-> ->]; [lia|lia|]. rewrite scaffold_word_unit by lia.
    by destruct (_ =? _).
  - destruct (Hsplit 2 1) as [-> ->]; [lia|lia|]. rewrite scaffold_word_unit by lia.
    by destruct (_ =? _).
Qed.
(** C3, as stated, fails: with one cell going from dead to live and the
    coloured table, the slot holds the token at index
    [(current << 1) | previous] = 2, shown as 42, whereas the table entry
    at [(previous << 1) | current] = 1 is the token shown as 41. *)
Lemma encode_index_counterexample :
  let db := init_draw_buffer (replicate 6 0) 1 1 in
  let out := fill_draw_buffer_4bit_color color_tokens_4bit db [1] [0] 1 1 in
  rd out (slot 1 0) = 0x3234
  ∧ spec_token color_tokens_4bit [0] [1] 0 = 0x3134
  ∧ rd out (slot 1 0) ≠ spec_token color_tokens_4bit [0] [1] 0.
Proof. by vm_compute. Qed.

(** C4: what the encoder writes for the 2x2 example.  The coloured table
    gives 42 40 40 42.  The monochrome table gives 40 40 40 40: its entries
    follow the old state of a cell, not the new one. *)
Theorem encode_example_2x2 :
  let db := init_draw_buffer (replicate 18 0) 2 2 in
  cell_codes (fill_draw_buffer_4bit_color color_tokens_4bit db [1; 0; 0; 1] [0; 0; 0; 0] 2 2) 2 2
    = ["42"; "40"; "40"; "42"]%string
  ∧ cell_codes (fill_draw_buffer_4bit_color bw_tokens_4bit db [1; 0; 0; 1] [0; 0; 0; 0] 2 2) 2 2
    = ["40"; "40"; "40"; "40"]%string.
Proof. by vm_compute. Qed.

(** C5: the encoder leaves every scaffolding byte of the stream as it
    was: the ESC and '[' of each unit, its 'm' and the space or newline
    after it, and every byte of each row terminator, its two code bytes
    included; only the two code bytes of cell units can change.  On the
    buffer written by the initialisation loop those bytes are ESC, '[',
    'm', a space or a newline, and "00" in the row terminators. *)
Theorem fill_draw_buffer_keeps_scaffolding
    (toks db current previous : list Z) height width (j : nat) :
  0 ≤ height → 0 ≤ width →
  binary current → binary previous →
  Z.of_nat (length db) = 3 * (width + 1) * height →
  scaffold_byte width (Z.of_nat j) = true →
  let out := fill_draw_buffer_4bit_color toks db current previous height width in
  draw_bytes out !! j = draw_bytes db !! j
  ∧ (∀ junk, db = init_draw_buffer junk height width →
       Z.of_nat j < 6 * (width + 1) * height →
       draw_bytes out !! j = Some (scaffold_value width (Z.of_nat j))).
Proof.
  intros Hh Hw _ _ Hlen Hs out.
  assert (draw_bytes out !! j = draw_bytes db !! j) as Hsame.
  { unfold out. rewrite !lookup_draw_bytes.
    destruct (fill_draw_buffer_lookup toks current previous db height width)
      as (_ & _ & Hframe); [lia|lia|].
    rewrite Hframe; [done|].
    intros y x Hy Hx. apply scaffold_byte_not_slot; (done || lia). }
  split; [done|].
  intros junk -> Hj. rewrite Hsame, lookup_draw_bytes.
  rewrite length_init_draw_buffer in Hlen by done.
  rewrite init_draw_buffer_lookup; [|done|done|done|].
  - simpl. apply scaffold_word_bytes.
  - rewrite Nat2Z.inj_div. change (Z.of_nat 2) with 2.
    apply Z.div_lt_upper_bound; lia.
Qed.

Lemma fill_draw_buffer_keeps_scaffolding_witness :
  let db := init_draw_buffer (replicate 18 0) 2 2 in
  let out := fill_draw_buffer_4bit_color color_tokens_4bit db [1; 0; 0; 1] [0; 1; 0; 0] 2 2 in
  draw_bytes out !! 17%nat = draw_bytes db !! 17%nat
  ∧ draw_bytes out !! 17%nat = Some 10.
Proof.
  intros db out.
  destruct (fill_draw_buffer_keeps_scaffolding color_tokens_4bit db
              [1; 0; 0; 1] [0; 1; 0; 0] 2 2 17) as [Hsame Hval];
    [lia | lia | | | reflexivity | reflexivity |].
  - unfold binary. repeat constructor; lia.
  - unfold binary. repeat constructor; lia.
  - split; [exact Hsame|]. apply (Hval (replicate 18 0)); [reflexivity|lia].
Defined.

End frame.

(** ** Argument validation *)

Section validation.
Import Driver.

Lemma validate_unfold argv errno :
  validate argv errno =
    validate_step argv 2 (validate_step argv 1 (validate_step argv 0
      (inr ([0; 0; 0], errno)))).
Proof. reflexivity. Qed.

Lemma rejects_false errno i text :
  rejects errno i text = false →
  converted (strtoul text) = true ∧ rest (strtoul text) = EmptyString
  ∧ errno = false ∧ erange (strtoul text) = false
  ∧ rd min_vals i ≤ value (strtoul text) ≤ rd max_vals i.
Proof.
  unfold rejects. cbv zeta. intros H.
  apply orb_false_elim in H as [H Hhi].
  apply orb_false_elim in H as [H Hlo].
  apply orb_false_elim in H as [H Herr].
  apply orb_false_elim in H as [Hconv Hrest].
  apply orb_false_elim in Herr as [-> ->].
  apply negb_false_iff in Hconv, Hrest.
  apply String.eqb_eq in Hrest. apply Z.ltb_ge in Hhi, Hlo.
  repeat split; (done || lia).
Qed.


(** The loop gets through only when none of the three values is rejected. *)
Lemma validate_inr argv errno vals er :
  validate argv errno = inr (vals, er) →
  vals = [value (strtoul (arg argv 1)); value (strtoul (arg argv 2));
          value (strtoul (arg argv 3))]
  ∧ rejects errno 0 (arg argv 1) = false
  ∧ (∃ e1, rejects e1 1 (arg argv 2) = false)
  ∧ (∃ e2, rejects e2 2 (arg argv 3) = false).
Proof.
  rewrite validate_unfold. unfold validate_step at 3.
  change (arg argv (Z.to_nat (0 + 1))) with (arg argv 1).
  destruct (rejects errno 0 (arg argv 1)) eqn:R0; [done|].
  unfold validate_step at 2.
  change (arg argv (Z.to_nat (1 + 1))) with (arg argv 2).
  destruct (rejects _ 1 (arg argv 2)) eqn:R1; [done|].
  unfold validate_step.
  change (arg argv (Z.to_nat (2 + 1))) with (arg argv 3).
  destruct (rejects _ 2 (arg argv 3)) eqn:R2; [done|].
  intros [= <- <-]. eauto 10.
Qed.

Lemma validate_step_inl argv i ev : validate_step argv i (inl ev) = inl ev.
Proof. done. Qed.




Lemma main_args_inl e argv tr code :
  main_args e argv = inl (tr, code) → ∃ ev, tr = [ev].
Proof.
  unfold main_args. cbv zeta.
  destruct (negb (signal_ok e)); [intros [= <- _]; eauto|].
  destruct (_ || _); [intros [= <- _]; eauto|].
  destruct (_ && _).
  - destruct (validate _ _) as [ev | [vals er]]; [|done]. intros [= <- _]. eauto.
  - destruct (validate _ _) as [ev | [vals er]]; [|done]. intros [= <- _]. eauto.
Qed.

(** A run gets past validation only with one of the two token tables and
    with the three values inside their ranges. *)
Lemma main_args_inr e argv c :
  main_args e argv = inr c →
  (tokens c = Encoder.color_tokens_4bit ∨ tokens c = Encoder.bw_tokens_4bit)
  ∧ 1 ≤ height c ≤ 2000 ∧ 1 ≤ width c ≤ 2000 ∧ 0 ≤ max_fps c ≤ 4800.
Proof.
  unfold main_args. cbv zeta.
  destruct (negb (signal_ok e)); [done|].
  destruct (_ || _); [done|].
  assert (∀ toks args,
    match validate args (errno_erange e) with
    | inl ev => inl ([ev], 1)
    | inr (vals, _) =>
        inr {| tokens := toks; height := rd vals 0; width := rd vals 1;
               max_fps := rd vals 2 |}
    end = inr c →
    tokens c = toks
    ∧ 1 ≤ height c ≤ 2000 ∧ 1 ≤ width c ≤ 2000 ∧ 0 ≤ max_fps c ≤ 4800) as Hval.
  { intros toks args. destruct (validate _ _) as [ev | [vals er]] eqn:Hv; [done|].
    intros [= <-]. simpl.
    apply validate_inr in Hv as (-> & R0 & [e1 R1] & [e2 R2]).
    apply rejects_false in R0 as (_ & _ & _ & _ & R0).
    apply rejects_false in R1 as (_ & _ & _ & _ & R1).
    apply rejects_false in R2 as (_ & _ & _ & _ & R2).
    change (rd min_vals 0) with 1 in R0. change (rd max_vals 0) with 2000 in R0.
    change (rd min_vals 1) with 1 in R1. change (rd max_vals 1) with 2000 in R1.
    change (rd min_vals 2) with 0 in R2. change (rd max_vals 2) with 4800 in R2.
    done. }
  destruct (_ && _); intros Hc; apply Hval in Hc as (-> & ?); auto.
Qed.




End validation.

(** ** The buffers of a run *)

Section run_buffers.
Import Driver.

Lemma length_malloc junk n : 0 ≤ n → Z.of_nat (length (malloc junk n)) = n.
Proof.
  intros Hn. unfold malloc.
  rewrite length_take, length_app, length_replicate. lia.
Qed.

Lemma memcpy_whole (dst src : list Z) n :
  Z.of_nat (length src) = n → Z.of_nat (length dst) = n → memcpy dst src n = src.
Proof.
  intros Hs Hd. unfold memcpy.
  rewrite take_ge, drop_ge by lia. apply app_nil_r.
Qed.

(** [(n + 7) & ~7u] rounds up to a multiple of 8. *)
Lemma land_pad8 a : 0 ≤ a < 2 ^ 32 → Z.land a 0xFFFFFFF8 = 8 * (a `div` 8).
Proof.
  intros Ha. apply Z.bits_inj'. intros n Hn.
  rewrite Z.land_spec.
  change 0xFFFFFFF8 with (Z.shiftl (Z.ones 29) 3).
  replace (8 * (a `div` 8)) with (Z.shiftl (Z.shiftr a 3) 3)
    by (rewrite Z.shiftl_mul_pow2, Z.shiftr_div_pow2 by lia; change (2 ^ 3) with 8; lia).
  destruct (Z.ltb_spec n 3).
  - rewrite !Z.shiftl_spec_low by lia. apply andb_false_r.
  - rewrite !Z.shiftl_spec, Z.shiftr_spec by lia.
    replace (n - 3 + 3) with n by lia.
    destruct (Z.ltb_spec n 32).
    + rewrite Z.ones_spec_low by lia. apply andb_true_r.
    + rewrite Z.ones_spec_high by lia. rewrite andb_false_r.
      destruct (Z.eq_dec a 0) as [-> | ?]; [by rewrite Z.bits_0|].
      symmetry. apply Z.bits_above_log2; [lia|].
      apply Z.log2_lt_pow2; [lia|].
      pose proof (Z.pow_le_mono_r 2 32 n ltac:(lia) ltac:(lia)). lia.
Qed.

Lemma buffer_area_pad h w :
  1 ≤ h ≤ 2000 → 1 ≤ w ≤ 2000 →
  let area := Z.land (u64 (h * w + 7)) 0xFFFFFFF8 in
  area = 8 * (area `div` 8) ∧ h * w ≤ area ∧ 0 ≤ area.
Proof.
  intros Hh Hw. cbv zeta. unfold u64.
  rewrite Z.mod_small by nia. rewrite land_pad8 by nia.
  replace ((8 * ((h * w + 7) `div` 8)) `div` 8) with ((h * w + 7) `div` 8)
    by (rewrite (Z.mul_comm 8), Z.div_mul; lia).
  pose proof (Z.div_mod (h * w + 7) 8 ltac:(lia)).
  pose proof (Z.mod_pos_bound (h * w + 7) 8 ltac:(lia)).
  lia.
Qed.

(** Every byte of a word masked with 0x0101010101010101 is 0 or 1. *)
Lemma masked_byte h k :
  0 ≤ k < 8 →
  let b := char_wrap (Z.land (Z.shiftr (Z.land h 0x0101010101010101) (8 * k)) 255) in
  b = 0 ∨ b = 1.
Proof.
  intros Hk. cbv zeta.
  rewrite Z.shiftr_land, <- Z.land_assoc.
  assert (Z.land (Z.shiftr 0x0101010101010101 (8 * k)) 255 = Z.ones 1) as ->.
  { assert (k = 0 ∨ k = 1 ∨ k = 2 ∨ k = 3 ∨ k = 4 ∨ k = 5 ∨ k = 6 ∨ k = 7)
      as [-> | [-> | [-> | [-> | [-> | [-> | [-> | ->]]]]]]] by lia; reflexivity. }
  rewrite Z.land_ones by lia.
  pose proof (Z.mod_pos_bound (Z.shiftr h (8 * k)) (2 ^ 1) ltac:(lia)).
  rewrite char_wrap_small by lia. lia.
Qed.

Lemma store_u64_lookup (buf : list Z) off word :
  0 ≤ off →
  length (store_u64 buf off word) = length buf ∧
  ∀ i : nat, store_u64 buf off word !! i =
    if decide (off ≤ Z.of_nat i < off + 8 ∧ (i < length buf)%nat)
    then Some (char_wrap (Z.land (Z.shiftr word (8 * (Z.of_nat i - off))) 255))
    else buf !! i.
Proof.
  intros Hoff. unfold store_u64.
  apply (fill_run_lookup
           (λ k, char_wrap (Z.land (Z.shiftr word (8 * k)) 255)) off 8 buf); lia.
Qed.

(** After randomisation the first [8 * num_words] cells hold 0 or 1,
    whatever the buffer held before. *)
Lemma randomize_binary_prefix (buf : list Z) num_words seed :
  0 ≤ num_words →
  length (randomize buf num_words seed) = length buf ∧
  ∀ (i : nat) v, Z.of_nat i < 8 * num_words →
    randomize buf num_words seed !! i = Some v → v = 0 ∨ v = 1.
Proof.
  intros Hn. unfold randomize.
  set (body := λ (i : Z) '(b, h, abp),
    let h := fxhash h i in
    (store_u64 b abp (Z.land h 0x0101010101010101), h, abp + 8)).
  set (P := λ (m : Z) (st : list Z * Z * Z),
    st.2 = 8 * m ∧ length st.1.1 = length buf ∧
    ∀ (i : nat) v, Z.of_nat i < 8 * m → st.1.1 !! i = Some v → v = 0 ∨ v = 1).
  assert (P num_words (for_range 0 num_words body (buf, seed, 0))) as (_ & ? & ?);
    [|done].
  apply for_range_ind; [| |done]; unfold P.
  - simpl. split; [done|]. split; [done|]. intros; lia.
  - intros m [[b h] abp] Hm (Habp & Hlen & Hbin). simpl in *. subst abp.
    destruct (store_u64_lookup b (8 * m)
                (Z.land (fxhash h m) 0x0101010101010101)) as [Hlen' Hlk]; [lia|].
    split; [lia|]. split; [congruence|].
    intros i v Hi. rewrite Hlk. case_decide as Hd.
    + intros [= <-]. apply masked_byte. lia.
    + intros Hv. apply (Hbin i v); [|done].
      apply lookup_lt_Some in Hv. lia.
Qed.

End run_buffers.

(** ** The driver loop *)

Section driver_loop.
Import Encoder Driver.

Lemma main_loop_unfold fuel e c ss sn k b :
  main_loop (Datatypes.S fuel) e c ss sn k b =
    let gen' := u64 (gen b + 1) in
    if gen b <? 50000 then
      if status_sigint e k then Some [Stdout_reset_font]
      else
        let draw := fill_draw_buffer_4bit_color (tokens c)
                      (draw_buffer b) (front_buffer b) (back_buffer b)
                      (height c) (width c) in
        let front := Stepper.do_gen_naive (back_buffer b) (front_buffer b)
                       (height c) (width c) in
        let pause :=
          if Z.lor ss sn =? 0 then [] else [Sleep ss sn] in
        app (Stdout_clear :: Stdout_draw_buffer draw :: Stdout_reset_font
             :: Stdout_gen gen' :: pause) <$>
          main_loop fuel e c ss sn (Datatypes.S k)
            {| gen := gen'; front_buffer := front; back_buffer := front_buffer b;
               draw_buffer := draw |}
    else Some [].
Proof. reflexivity. Qed.


Lemma iterations_frame db g pause tr :
  pause = [] ∨ (∃ s n, pause = [Sleep s n]) →
  iterations ((Stdout_clear :: Stdout_draw_buffer db :: Stdout_reset_font
               :: Stdout_gen g :: pause) ++ tr) = 1 + iterations tr.
Proof.
  intros [-> | (s & n & ->)]; unfold iterations; simpl; lia.
Qed.

(** From generation [gen b] on, the loop ends within [50001 - gen b]
    evaluations of its condition and runs its body at most
    [50000 - gen b] times. *)
Lemma main_loop_terminates e c ss sn fuel :
  ∀ k b, 0 ≤ gen b ≤ 50000 → 50001 - gen b ≤ Z.of_nat fuel →
  ∃ tr, main_loop fuel e c ss sn k b = Some tr ∧ iterations tr ≤ 50000 - gen b.
Proof.
  induction fuel as [|fuel IH]; intros k b Hgen Hfuel; [lia|].
  rewrite main_loop_unfold. cbv zeta.
  destruct (Z.ltb_spec (gen b) 50000) as [Hlt | Hge].
  - destruct (status_sigint e k).
    + exists [Stdout_reset_font]. split; [done|]. unfold iterations. simpl. lia.
    + assert (u64 (gen b + 1) = gen b + 1) as Hgen'.
      { unfold u64. apply Z.mod_small. lia. }
      rewrite Hgen'.
      edestruct (IH (Datatypes.S k)) as (tr & -> & Htr);
        [| |eexists; split; [reflexivity|]].
      * simpl. lia.
      * simpl. lia.
      * simpl in Htr. rewrite iterations_frame; [lia|].
        destruct (_ =? 0); eauto.
  - exists []. split; [done|]. unfold iterations. simpl. lia.
Qed.

(** Without an interrupt the body runs exactly [50000 - gen b] times. *)
Lemma main_loop_uninterrupted e c ss sn fuel :
  (∀ k, status_sigint e k = false) →
  ∀ k b, 0 ≤ gen b ≤ 50000 → 50001 - gen b ≤ Z.of_nat fuel →
  ∃ tr, main_loop fuel e c ss sn k b = Some tr ∧ iterations tr = 50000 - gen b.
Proof.
  intros Hsig.
  induction fuel as [|fuel IH]; intros k b Hgen Hfuel; [lia|].
  rewrite main_loop_unfold. cbv zeta. rewrite Hsig.
  destruct (Z.ltb_spec (gen b) 50000) as [Hlt | Hge].
  - assert (u64 (gen b + 1) = gen b + 1) as Hgen'.
    { unfold u64. apply Z.mod_small. lia. }
    rewrite Hgen'.
    edestruct (IH (Datatypes.S k)) as (tr & -> & Htr);
      [| |eexists; split; [reflexivity|]].
    + simpl. lia.
    + simpl. lia.
    + simpl in Htr. rewrite iterations_frame; [lia|].
      destruct (_ =? 0); eauto.
  - exists []. split; [done|]. unfold iterations. simpl. lia.
Qed.

(** C9: the driver loop ends: with fuel for 50001 evaluations of the loop
    condition [main] returns, whatever the interrupt flag and the grids
    are; the trace holds at most 50000 iterations, and a run that enters
    the loop returns 0. *)
Theorem main_terminates fuel e argv :
  50001 ≤ Z.of_nat fuel →
  ∃ tr code, main fuel e argv = Some (tr, code)
    ∧ iterations tr ≤ 50000
    ∧ (∀ c, main_args e argv = inr c →
         malloc_ok e 2 && malloc_ok e 1 && malloc_ok e 0 = true → code = 0).
Proof.
  intros Hfuel. unfold main.
  destruct (main_args e argv) as [[tr code] | c] eqn:Hargs.
  - exists tr, code. split; [done|]. split; [|done].
    apply main_args_inl in Hargs as [ev ->].
    unfold iterations. simpl. destruct (is_iteration ev); simpl; lia.
  - unfold main_run. cbv zeta.
    destruct (malloc_ok e 2 && malloc_ok e 1 && malloc_ok e 0); simpl.
    + match goal with
      | |- context [main_loop fuel e c ?ss ?sn 0 ?b] =>
          destruct (main_loop_terminates e c ss sn fuel 0%nat b) as (tr & -> & Htr);
            [simpl; lia | simpl; lia |]
      end.
      simpl in Htr. eexists _, 0. split; [reflexivity|].
      split; [|done]. unfold iterations in *. simpl. lia.
    + eexists _, 1. split; [reflexivity|]. split; [|by intros ? [= <-]].
      unfold iterations. simpl. lia.
Qed.

Lemma main_terminates_witness :
  ∃ tr code, main (Z.to_nat 50001) example_env ["gol"; "3"; "4"; "0"]%string = Some (tr, code)
    ∧ iterations tr ≤ 50000
    ∧ (∀ c, main_args example_env ["gol"; "3"; "4"; "0"]%string = inr c →
         malloc_ok example_env 2 && malloc_ok example_env 1 && malloc_ok example_env 0 = true →
         code = 0).
Proof.
  apply (main_terminates (Z.to_nat 50001) example_env ["gol"; "3"; "4"; "0"]%string).
  lia.
Defined.

End driver_loop.

(** ** The first frame *)

Section first_frame.
Import Encoder Driver.

(** The first frame of a run is encoded from the randomised front
    buffer and its copy. *)
Lemma main_run_first_frame fuel e c tr code db :
  main_run fuel e c = Some (tr, code) →
  first_frame tr = Some db →
  let buffer_area := Z.land (u64 (height c * width c + 7)) 0xFFFFFFF8 in
  let front := randomize (malloc (heap e 1) buffer_area) (buffer_area `div` 8)
                 (u64 (rand_value e)) in
  let back := memcpy (malloc (heap e 2) buffer_area) front buffer_area in
  let draw := init_draw_buffer
                (malloc (heap e 0) (u64 (3 * (width c + 1) * height c)))
                (height c) (width c) in
  db = fill_draw_buffer_4bit_color (tokens c) draw front back (height c) (width c).
Proof.
  unfold main_run. cbv zeta.
  destruct (malloc_ok e 2 && malloc_ok e 1 && malloc_ok e 0); simpl;
    [|by intros [= <- _]].
  intros Hrun Hfirst.
  apply fmap_Some in Hrun as (tr' & Hloop & [= -> _]).
  destruct fuel as [|fuel]; [done|].
  rewrite main_loop_unfold in Hloop. cbv zeta in Hloop. simpl gen in Hloop.
  change (0 <? 50000) with true in Hloop. cbv iota in Hloop.
  destruct (status_sigint e 0); [by injection Hloop as <-|].
  apply fmap_Some in Hloop as (tr'' & _ & ->).
  simpl in Hfirst. by injection Hfirst as <-.
Qed.

(** C8: the first frame written is encoded with a previous grid equal to
    the current one, and each of its cell tokens is the code 40 or the code
    47, with either token table. *)
Theorem first_frame_shows_no_change fuel e argv c tr code db :
  main_args e argv = inr c →
  main fuel e argv = Some (tr, code) →
  first_frame tr = Some db →
  (∃ scaffold grid,
     db = fill_draw_buffer_4bit_color (tokens c) scaffold grid grid (height c) (width c))
  ∧ ∀ i, 0 ≤ i < height c * width c →
      token_code (rd db (slot (width c) i)) = "40"%string
      ∨ token_code (rd db (slot (width c) i)) = "47"%string.
Proof.
  intros Hargs Hmain Hfirst. unfold main in Hmain. rewrite Hargs in Hmain.
  pose proof (main_run_first_frame _ _ _ _ _ _ Hmain Hfirst) as Hdb.
  cbv zeta in Hdb.
  apply main_args_inr in Hargs as (Htoks & Hh & Hw & _).
  destruct (buffer_area_pad (height c) (width c) Hh Hw) as (Hpad & Harea & Hpos).
  cbv zeta in Hpad, Harea, Hpos.
  set (area := Z.land (u64 (height c * width c + 7)) 0xFFFFFFF8) in *.
  destruct (randomize_binary_prefix (malloc (heap e 1) area) (area `div` 8)
              (u64 (rand_value e))) as [Hlen Hbin]; [lia|].
  set (front := randomize (malloc (heap e 1) area) (area `div` 8)
                  (u64 (rand_value e))) in *.
  assert (Z.of_nat (length front) = area) as Hfront.
  { rewrite Hlen. by apply length_malloc. }
  rewrite memcpy_whole in Hdb by (done || by apply length_malloc).
  split; [eauto|].
  intros i Hi. rewrite Hdb.
  rewrite fill_draw_buffer_slot; [|lia|lia| |lia].
  - unfold cell_token.
    assert (rd front i = 0 ∨ rd front i = 1) as Hcell.
    { unfold rd. destruct (Z.ltb_spec i 0); [lia|].
      destruct (front !! Z.to_nat i) as [v|] eqn:Hv; [|by left].
      apply (Hbin (Z.to_nat i) v); [lia|done]. }
    destruct Hcell as [-> | ->], Htoks as [-> | ->]; vm_compute; auto.
  - rewrite length_init_draw_buffer by lia.
    rewrite length_malloc; unfold u64; rewrite Z.mod_small; nia.
Qed.

Lemma first_frame_shows_no_change_witness :
  ∃ tr code db,
    main 5 example_env ["gol"; "2"; "3"; "5"]%string = Some (tr, code)
    ∧ first_frame tr = Some db
    ∧ (token_code (rd db (slot 3 4)) = "40"%string
       ∨ token_code (rd db (slot 3 4)) = "47"%string).
Proof.
  eexists _, _, _. split; [vm_compute; reflexivity|]. split; [reflexivity|].
  refine (proj2 (first_frame_shows_no_change 5 example_env
                   ["gol"; "2"; "3"; "5"]%string
                   {| tokens := color_tokens_4bit; height := 2; width := 3; max_fps := 5 |}
                   _ _ _ _ _ _) 4 _);
    [vm_compute; reflexivity | vm_compute; reflexivity | reflexivity | simpl; lia].
Defined.

End first_frame.

(** ** The model on small inputs *)

Section checks.
Import Stepper Encoder Driver.

(** A vertical blinker on a 5x5 torus turns horizontal. *)
Example blinker_step :
  do_gen_naive (replicate 25 0)
    [0; 0; 0; 0; 0;  0; 0; 1; 0; 0;  0; 0; 1; 0; 0;  0; 0; 1; 0; 0;  0; 0; 0; 0; 0] 5 5
  = [0; 0; 0; 0; 0;  0; 0; 0; 0; 0;  0; 1; 1; 1; 0;  0; 0; 0; 0; 0;  0; 0; 0; 0; 0].
Proof. reflexivity. Qed.

(** The corner cell counts its neighbours across both edges. *)
Example corner_wraps :
  let src := [0; 0; 0; 1;  0; 0; 0; 0;  0; 0; 0; 0;  1; 0; 0; 1] in
  window_sum src 4 4 0 0 = 3
  ∧ do_gen_naive (replicate 16 0) src 4 4 !! 0%nat = Some 1.
Proof. by vm_compute. Qed.

(** A dead grid stays dead. *)
Example dead_grid_step :
  do_gen_naive (replicate 12 1) (replicate 12 0) 3 4 = replicate 12 0.
Proof. reflexivity. Qed.

(** The frame of a 1x2 grid as the byte stream sent to the terminal:
    ESC [ 4 2 m space, ESC [ 4 1 m space, ESC [ 0 0 m newline. *)
Example frame_bytes_1x2 :
  draw_bytes (fill_draw_buffer_4bit_color color_tokens_4bit
                (init_draw_buffer (replicate 9 0) 1 2) [1; 0] [0; 1] 1 2)
  = [27; 91; 52; 50; 109; 32;  27; 91; 52; 49; 109; 32;  27; 91; 48; 48; 109; 10].
Proof. reflexivity. Qed.

Example strtoul_plain : strtoul "2000" =
  {| value := 2000; rest := ""; converted := true; erange := false |}.
Proof. reflexivity. Qed.

Example strtoul_trailing : strtoul " +12x" =
  {| value := 12; rest := "x"; converted := true; erange := false |}.
Proof. reflexivity. Qed.

Example strtoul_no_digits : strtoul "-h" =
  {| value := 0; rest := "-h"; converted := false; erange := false |}.
Proof. reflexivity. Qed.

Example strtoul_negative : strtoul "-1" =
  {| value := 18446744073709551615; rest := ""; converted := true; erange := false |}.
Proof. reflexivity. Qed.

(** A text with a minus sign is compared after [strtoul] has negated it
    modulo 2^64: this one denotes a number below 1 and is taken as a
    height of 5. *)
Example strtoul_negative_in_range :
  value (strtoul "-18446744073709551611") = 5
  ∧ main_args example_env ["gol"; "-18446744073709551611"; "10"; "5"]%string
    = inr {| tokens := color_tokens_4bit; height := 5; width := 10; max_fps := 5 |}.
Proof. by vm_compute. Qed.

Example strtoul_overflow : strtoul "18446744073709551616" =
  {| value := 18446744073709551615; rest := ""; converted := true; erange := true |}.
Proof. reflexivity. Qed.

Example help_flag_prefix :
  is_help "-H" = true ∧ is_help "--HELP me" = true ∧ is_help "-5" = false.
Proof. by vm_compute. Qed.

Example bw_flag_exact :
  is_bw "--BW" = true ∧ is_bw "-bw" = true ∧ is_bw "-bwx" = false.
Proof. by vm_compute. Qed.

Example accepts_largest_values :
  main_args example_env ["gol"; "2000"; "2000"; "4800"]%string
  = inr {| tokens := color_tokens_4bit; height := 2000; width := 2000; max_fps := 4800 |}.
Proof. by vm_compute. Qed.

Example rejects_above_range :
  main 0 example_env ["gol"; "2001"; "10"; "5"]%string
  = Some ([Stderr_bad_input 1 "height" 1 2000], 1).
Proof. by vm_compute. Qed.

Example rejects_zero_height :
  main 0 example_env ["gol"; "--bw"; "0"; "10"; "5"]%string
  = Some ([Stderr_bad_input 1 "height" 1 2000], 1).
Proof. by vm_compute. Qed.

(** A run of a 2x3 grid that is interrupted when the second frame is due. *)
Example interrupted_run :
  ∃ db, main 3 example_env ["gol"; "2"; "3"; "5"]%string
        = Some ([Malloc 48; Malloc 8; Malloc 8;
                 Stdout_clear; Stdout_draw_buffer db; Stdout_reset_font; Stdout_gen 1;
                 Sleep 0 200000000; Stdout_reset_font], 0).
Proof. eexists. by vm_compute. Qed.

End checks.

(** ** More on the stepper: what it reads, fixed points, symmetry *)

Section stepper_more.
Import Stepper.

Lemma rd_take (g : list Z) n i :
  0 ≤ i < n → rd (take (Z.to_nat n) g) i = rd g i.
Proof.
  intros Hi. unfold rd. destruct (Z.ltb_spec i 0); [lia|].
  by rewrite lookup_take_lt by lia.
Qed.

Lemma rd_replicate n v i :
  0 ≤ i < n → rd (replicate (Z.to_nat n) v) i = v.
Proof.
  intros Hi. unfold rd. destruct (Z.ltb_spec i 0); [lia|].
  by rewrite lookup_replicate_2 by lia.
Qed.

(** [next_cell] looks at the source only through the nine wrapped cells
    and the centre. *)
Lemma next_cell_ext (g1 g2 : list Z) h w y x y' x' :
  (∀ dy dx, -1 ≤ dy ≤ 1 → -1 ≤ dx ≤ 1 →
     rd g1 (wrap_index h w y x dy dx) = rd g2 (wrap_index h w y' x' dy dx)) →
  rd g1 (y * w + x) = rd g2 (y' * w + x') →
  next_cell g1 h w y x = next_cell g2 h w y' x'.
Proof.
  intros Hwin Hc. unfold next_cell. cbv zeta.
  rewrite !live_count_unfold. cbv zeta.
  rewrite Hc. by rewrite !Hwin by lia.
Qed.

Lemma fmap_seqZ_const n (v : Z) :
  (λ _, v) <$> seqZ 0 n = replicate (Z.to_nat n) v.
Proof.
  apply list_eq. intros i. rewrite lookup_fmap_seqZ.
  case_decide.
  - by rewrite lookup_replicate_2 by lia.
  - symmetry. apply lookup_replicate_None. lia.
Qed.

Lemma fmap_seqZ_ext (f g : Z → Z) n :
  (∀ i, 0 ≤ i < n → f i = g i) → f <$> seqZ 0 n = g <$> seqZ 0 n.
Proof.
  intros H. apply list_eq. intros i. rewrite !lookup_fmap_seqZ.
  case_decide; [|done]. f_equal. apply H. lia.
Qed.

(** Below [height * width] the step on padded buffers is the step of
    the grid. *)
Lemma do_gen_naive_prefix height width (dst src : list Z) (i : nat) :
  0 < height < 2 ^ 63 → 0 < width < 2 ^ 63 →
  height * width ≤ Z.of_nat (length src) →
  height * width ≤ Z.of_nat (length dst) →
  Z.of_nat i < height * width →
  do_gen_naive dst src height width !! i
    = step_grid height width (take (Z.to_nat (height * width)) src) !! i.
Proof.
  intros Hh Hw Hsrc Hdst Hi. unfold step_grid.
  rewrite (do_gen_naive_grid height width (replicate _ 0))
    by (done || rewrite length_replicate; nia).
  destruct (do_gen_naive_lookup height width dst src Hh Hw) as [_ ->].
  rewrite decide_True by lia.
  rewrite lookup_fmap_seqZ, decide_True by done. f_equal.
  destruct (div_mod_in_grid height width (Z.of_nat i)) as [Hy Hx]; [lia|lia|].
  apply next_cell_ext.
  - intros dy dx Hdy Hdx. symmetry. apply rd_take.
    apply wrap_index_in_range; lia.
  - symmetry. apply rd_take. nia.
Qed.

(** X1: the step only reads the first [height * width] cells of the
    source and only writes the first [height * width] cells of the
    destination: on larger buffers the result is the step of the grid
    followed by the untouched tail of the destination. *)
Theorem do_gen_naive_on_padded_buffers height width (dst src : list Z) :
  0 < height < 2 ^ 63 → 0 < width < 2 ^ 63 →
  height * width ≤ Z.of_nat (length src) →
  height * width ≤ Z.of_nat (length dst) →
  do_gen_naive dst src height width =
    step_grid height width (take (Z.to_nat (height * width)) src)
    ++ drop (Z.to_nat (height * width)) dst.
Proof.
  intros Hh Hw Hsrc Hdst.
  assert (length (step_grid height width (take (Z.to_nat (height * width)) src))
          = Z.to_nat (height * width)) as Hlen.
  { unfold step_grid.
    rewrite (do_gen_naive_grid height width (replicate _ 0))
      by (done || rewrite length_replicate; nia).
    by rewrite length_fmap, length_seqZ. }
  apply list_eq. intros i.
  destruct (decide (Z.of_nat i < height * width)) as [Hi | Hi].
  - rewrite lookup_app_l by lia. by apply do_gen_naive_prefix.
  - rewrite lookup_app_r by lia. rewrite Hlen, lookup_drop.
    destruct (do_gen_naive_lookup height width dst src Hh Hw) as [_ ->].
    rewrite decide_False by lia. f_equal. lia.
Qed.

Lemma do_gen_naive_on_padded_buffers_witness :
  do_gen_naive [5; 5; 5; 5; 5; 5; 5; 5] [0; 1; 1; 1; 0; 0; 9; 9] 2 3 =
    step_grid 2 3 (take (Z.to_nat (2 * 3)) [0; 1; 1; 1; 0; 0; 9; 9])
    ++ drop (Z.to_nat (2 * 3)) [5; 5; 5; 5; 5; 5; 5; 5].
Proof.
  apply (do_gen_naive_on_padded_buffers 2 3); [lia | lia | simpl; lia | simpl; lia].
Defined.

(** X2: every index the step reads or writes lies inside the
    [height * width] cells of the grid. *)
Theorem do_gen_naive_indices_in_range h w y x dy dx :
  0 < h → 0 < w → 0 ≤ y < h → 0 ≤ x < w → -1 ≤ dy < 2 → -1 ≤ dx < 2 →
  0 ≤ wrap_index h w y x dy dx < h * w ∧ 0 ≤ y * w + x < h * w.
Proof.
  intros Hh Hw Hy Hx Hdy Hdx. split; [|nia].
  apply wrap_index_in_range; lia.
Qed.

Lemma do_gen_naive_indices_in_range_witness :
  0 ≤ wrap_index 3 4 0 0 (-1) (-1) < 3 * 4 ∧ 0 ≤ 0 * 4 + 0 < 3 * 4.
Proof. apply (do_gen_naive_indices_in_range 3 4 0 0 (-1) (-1)); lia. Defined.

Lemma step_grid_map h w (g : list Z) :
  0 < h < 2 ^ 63 → 0 < w < 2 ^ 63 →
  step_grid h w g = (λ i, next_cell g h w (i `div` w) (i `mod` w)) <$> seqZ 0 (h * w).
Proof.
  intros Hh Hw. unfold step_grid. apply do_gen_naive_grid; [done|done|].
  rewrite length_replicate. nia.
Qed.

Lemma length_step_grid h w (g : list Z) :
  0 < h < 2 ^ 63 → 0 < w < 2 ^ 63 → Z.of_nat (length (step_grid h w g)) = h * w.
Proof.
  intros Hh Hw. rewrite step_grid_map by done.
  rewrite length_fmap, length_seqZ. nia.
Qed.

Lemma step_grid_dead h w :
  0 < h < 2 ^ 63 → 0 < w < 2 ^ 63 →
  step_grid h w (replicate (Z.to_nat (h * w)) 0) = replicate (Z.to_nat (h * w)) 0.
Proof.
  intros Hh Hw. rewrite step_grid_map by done.
  etrans; [|apply (fmap_seqZ_const (h * w) 0)].
  apply fmap_seqZ_ext. intros i Hi.
  destruct (div_mod_in_grid h w i) as [Hy Hx]; [lia|lia|].
  rewrite next_cell_binary; [|by apply Forall_replicate; left|lia..].
  cbv zeta. unfold window_sum. cbv zeta.
  assert (∀ j, rd (replicate (Z.to_nat (h * w)) 0) j = 0) as Hz.
  { intros j. unfold rd. destruct (j <? 0); [done|].
    destruct (replicate _ _ !! _) as [v|] eqn:E; [|done].
    by apply lookup_replicate in E as [-> _]. }
  rewrite !Hz. by rewrite decide_False by lia.
Qed.

(** X3: a grid with no live cell has none after any number of steps. *)
Theorem dead_grid_stays_dead h w (k : nat) :
  0 < h < 2 ^ 63 → 0 < w < 2 ^ 63 →
  Nat.iter k (step_grid h w) (replicate (Z.to_nat (h * w)) 0)
    = replicate (Z.to_nat (h * w)) 0.
Proof.
  intros Hh Hw. induction k as [|k IH]; [done|].
  simpl. rewrite IH. by apply step_grid_dead.
Qed.

Lemma dead_grid_stays_dead_witness :
  Nat.iter 3 (step_grid 4 5) (replicate (Z.to_nat (4 * 5)) 0)
    = replicate (Z.to_nat (4 * 5)) 0.
Proof. apply (dead_grid_stays_dead 4 5 3); lia. Defined.

(** X4: a grid whose cells are all alive dies out in one step, on a
    torus of any size: every cell counts nine live cells. *)
Theorem full_grid_dies h w :
  0 < h < 2 ^ 63 → 0 < w < 2 ^ 63 →
  step_grid h w (replicate (Z.to_nat (h * w)) 1) = replicate (Z.to_nat (h * w)) 0.
Proof.
  intros Hh Hw. rewrite step_grid_map by done.
  etrans; [|apply (fmap_seqZ_const (h * w) 0)].
  apply fmap_seqZ_ext. intros i Hi.
  destruct (div_mod_in_grid h w i) as [Hy Hx]; [lia|lia|].
  rewrite next_cell_binary; [|by apply Forall_replicate; right|lia..].
  cbv zeta. unfold window_sum. cbv zeta.
  pose proof (Z.mod_pos_bound (i `div` w + -1 + h) h ltac:(lia)).
  pose proof (Z.mod_pos_bound (i `div` w + 0 + h) h ltac:(lia)).
  pose proof (Z.mod_pos_bound (i `div` w + 1 + h) h ltac:(lia)).
  pose proof (Z.mod_pos_bound (i `mod` w + -1 + w) w ltac:(lia)).
  pose proof (Z.mod_pos_bound (i `mod` w + 0 + w) w ltac:(lia)).
  pose proof (Z.mod_pos_bound (i `mod` w + 1 + w) w ltac:(lia)).
  rewrite !rd_replicate by nia. by rewrite decide_False by lia.
Qed.

Lemma full_grid_dies_witness :
  step_grid 1 2 (replicate (Z.to_nat (1 * 2)) 1) = replicate (Z.to_nat (1 * 2)) 0.
Proof. apply (full_grid_dies 1 2); lia. Defined.

End stepper_more.

(** ** The step on the torus: translation and the blinker *)

Section torus.
Import Stepper.

Lemma wrap_shift n y d s :
  0 < n → ((y + d + n) `mod` n + s) `mod` n = ((y + s) `mod` n + d + n) `mod` n.
Proof.
  intros Hn.
  rewrite Z.add_mod_idemp_l by lia.
  rewrite <- (Z.add_assoc ((y + s) `mod` n)), Z.add_mod_idemp_l by lia.
  f_equal. lia.
Qed.

Lemma rd_shift_grid h w sy sx (g : list Z) y x :
  0 < w → 0 ≤ y < h → 0 ≤ x < w →
  rd (shift_grid h w sy sx g) (y * w + x)
    = rd g (((y + sy) `mod` h) * w + (x + sx) `mod` w).
Proof.
  intros Hw Hy Hx. unfold shift_grid. rewrite rd_fmap_seqZ by nia.
  by destruct (index_row_col w y x) as [-> ->]; [lia|lia|].
Qed.

(** X5: the step commutes with moving the grid on the torus, by any
    number of rows and columns: the wrap-around treats every cell alike. *)
Theorem step_commutes_with_shift h w sy sx (g : list Z) :
  0 < h < 2 ^ 63 → 0 < w < 2 ^ 63 →
  Z.of_nat (length g) = h * w →
  step_grid h w (shift_grid h w sy sx g) = shift_grid h w sy sx (step_grid h w g).
Proof.
  intros Hh Hw Hlen. rewrite (step_grid_map h w (shift_grid _ _ _ _ _)) by done.
  unfold shift_grid at 2. apply fmap_seqZ_ext. intros i Hi.
  destruct (div_mod_in_grid h w i) as [Hy Hx]; [lia|lia|].
  set (y := i `div` w) in *. set (x := i `mod` w) in *.
  pose proof (Z.mod_pos_bound (y + sy) h ltac:(lia)) as Hy'.
  pose proof (Z.mod_pos_bound (x + sx) w ltac:(lia)) as Hx'.
  rewrite step_grid_map by done. rewrite rd_fmap_seqZ by nia.
  destruct (index_row_col w ((y + sy) `mod` h) ((x + sx) `mod` w)) as [-> ->];
    [lia|lia|].
  apply next_cell_ext.
  - intros dy dx Hdy Hdx. rewrite !wrap_index_mod by lia.
    rewrite rd_shift_grid by (lia || (apply Z.mod_pos_bound; lia)).
    by rewrite (wrap_shift h), (wrap_shift w) by lia.
  - apply rd_shift_grid; lia.
Qed.

Lemma step_commutes_with_shift_witness :
  let g := [0; 1; 0; 0;  0; 1; 1; 0;  1; 0; 0; 0] in
  step_grid 3 4 (shift_grid 3 4 2 (-1) g) = shift_grid 3 4 2 (-1) (step_grid 3 4 g).
Proof.
  intros g. apply (step_commutes_with_shift 3 4 2 (-1) g); [lia | lia | reflexivity].
Defined.

Lemma on_span_range a b y : on_span a b y = 0 ∨ on_span a b y = 1.
Proof. unfold on_span, c_bool. destruct (_ && _); auto. Qed.

Lemma on_span_1 a b y : on_span a b y = 1 ↔ a ≤ y ≤ b.
Proof.
  unfold on_span, c_bool.
  destruct (Z.leb_spec a y), (Z.leb_spec y b); simpl; split; (done || lia).
Qed.

Lemma rd_rect_grid h w r0 r1 c0 c1 y x :
  0 < w → 0 ≤ y < h → 0 ≤ x < w →
  rd (rect_grid h w r0 r1 c0 c1) (y * w + x) = on_span r0 r1 y * on_span c0 c1 x.
Proof.
  intros Hw Hy Hx. unfold rect_grid. rewrite rd_fmap_seqZ by nia.
  by destruct (index_row_col w y x) as [-> ->]; [lia|lia|].
Qed.

Lemma binary_rect_grid h w r0 r1 c0 c1 : binary (rect_grid h w r0 r1 c0 c1).
Proof.
  unfold binary, rect_grid. apply Forall_fmap, Forall_true. intros i. simpl.
  destruct (on_span_range r0 r1 (i `div` w)) as [-> | ->],
           (on_span_range c0 c1 (i `mod` w)) as [-> | ->]; auto.
Qed.

Lemma window_sum_rect_grid h w r0 r1 c0 c1 y x :
  0 < h → 0 < w → 0 ≤ y < h → 0 ≤ x < w →
  window_sum (rect_grid h w r0 r1 c0 c1) h w y x =
    (on_span r0 r1 ((y + -1 + h) `mod` h) + on_span r0 r1 ((y + 0 + h) `mod` h)
     + on_span r0 r1 ((y + 1 + h) `mod` h))
    * (on_span c0 c1 ((x + -1 + w) `mod` w) + on_span c0 c1 ((x + 0 + w) `mod` w)
       + on_span c0 c1 ((x + 1 + w) `mod` w)).
Proof.
  intros Hh Hw Hy Hx. unfold window_sum. cbv zeta.
  pose proof (Z.mod_pos_bound (y + -1 + h) h Hh).
  pose proof (Z.mod_pos_bound (y + 0 + h) h Hh).
  pose proof (Z.mod_pos_bound (y + 1 + h) h Hh).
  pose proof (Z.mod_pos_bound (x + -1 + w) w Hw).
  pose proof (Z.mod_pos_bound (x + 0 + w) w Hw).
  pose proof (Z.mod_pos_bound (x + 1 + w) w Hw).
  rewrite !rd_rect_grid by lia. ring.
Qed.

(** Three cells in a row are all seen only from the middle one. *)
Lemma span3_sum n a y :
  4 ≤ n → 0 ≤ a → a + 2 < n → 0 ≤ y < n →
  let s := on_span a (a + 2) ((y + -1 + n) `mod` n)
           + on_span a (a + 2) ((y + 0 + n) `mod` n)
           + on_span a (a + 2) ((y + 1 + n) `mod` n) in
  0 ≤ s ≤ 3 ∧ (s = 3 ↔ y = a + 1).
Proof.
  intros Hn Ha Ha2 Hy. cbv zeta.
  rewrite wrap_pred, wrap_self, wrap_succ by lia.
  unfold on_span, c_bool.
  destruct (Z.eqb_spec y 0), (Z.eqb_spec y (n - 1));
    repeat match goal with
    | |- context [?a <=? ?b] => destruct (Z.leb_spec a b)
    end; simpl; lia.
Qed.

(** A single cell is seen once from itself and from its two neighbours. *)
Lemma span1_sum n a y :
  3 ≤ n → 1 ≤ a → a + 1 < n → 0 ≤ y < n →
  on_span a a ((y + -1 + n) `mod` n) + on_span a a ((y + 0 + n) `mod` n)
  + on_span a a ((y + 1 + n) `mod` n) = on_span (a - 1) (a + 1) y.
Proof.
  intros Hn Ha Ha1 Hy.
  rewrite wrap_pred, wrap_self, wrap_succ by lia.
  unfold on_span, c_bool.
  destruct (Z.eqb_spec y 0), (Z.eqb_spec y (n - 1));
    repeat match goal with
    | |- context [?a <=? ?b] => destruct (Z.leb_spec a b)
    end; simpl; lia.
Qed.

(** X6: the blinker has period 2.  On a torus at least 4 high and 4 wide,
    three live cells in a row (row [r], columns [c] to [c + 2], away from
    the edges) become three live cells in a column (rows [r - 1] to
    [r + 1], column [c + 1]), and these become the row again. *)
Theorem blinker_oscillates h w r c :
  4 ≤ h < 2 ^ 63 → 4 ≤ w < 2 ^ 63 →
  1 ≤ r → r + 1 < h → 0 ≤ c → c + 2 < w →
  step_grid h w (rect_grid h w r r c (c + 2))
    = rect_grid h w (r - 1) (r + 1) (c + 1) (c + 1)
  ∧ step_grid h w (rect_grid h w (r - 1) (r + 1) (c + 1) (c + 1))
    = rect_grid h w r r c (c + 2).
Proof.
  intros Hh Hw Hr Hr1 Hc Hc2. split.
  - rewrite step_grid_map by lia. unfold rect_grid at 2.
    apply fmap_seqZ_ext. intros i Hi.
    destruct (div_mod_in_grid h w i) as [Hy Hx]; [lia|lia|].
    set (y := i `div` w) in *. set (x := i `mod` w) in *.
    rewrite next_cell_binary by (apply binary_rect_grid || lia). cbv zeta.
    rewrite window_sum_rect_grid, rd_rect_grid by lia.
    rewrite (span1_sum h r y) by lia.
    destruct (span3_sum w c x) as [Hcs Hcs3]; [lia..|]. cbv zeta in Hcs, Hcs3.
    revert Hcs Hcs3.
    generalize (on_span c (c + 2) ((x + -1 + w) `mod` w)
                + on_span c (c + 2) ((x + 0 + w) `mod` w)
                + on_span c (c + 2) ((x + 1 + w) `mod` w)).
    intros cs Hcs Hcs3.
    pose proof (on_span_1 (c + 1) (c + 1) x) as Hmid.
    destruct (on_span_range (r - 1) (r + 1) y) as [-> | ->],
             (on_span_range (c + 1) (c + 1) x) as [Hx1 | Hx1];
      rewrite Hx1 in *; case_decide; lia.
  - rewrite step_grid_map by lia. unfold rect_grid at 2.
    apply fmap_seqZ_ext. intros i Hi.
    destruct (div_mod_in_grid h w i) as [Hy Hx]; [lia|lia|].
    set (y := i `div` w) in *. set (x := i `mod` w) in *.
    rewrite next_cell_binary by (apply binary_rect_grid || lia). cbv zeta.
    rewrite window_sum_rect_grid, rd_rect_grid by lia.
    rewrite (span1_sum w (c + 1) x) by lia.
    replace (c + 1 - 1) with c by lia. replace (c + 1 + 1) with (c + 2) by lia.
    destruct (span3_sum h (r - 1) y) as [Hrs Hrs3]; [lia..|]. cbv zeta in Hrs, Hrs3.
    replace (r - 1 + 2) with (r + 1) in * by lia.
    revert Hrs Hrs3.
    generalize (on_span (r - 1) (r + 1) ((y + -1 + h) `mod` h)
                + on_span (r - 1) (r + 1) ((y + 0 + h) `mod` h)
                + on_span (r - 1) (r + 1) ((y + 1 + h) `mod` h)).
    intros rs Hrs Hrs3.
    pose proof (on_span_1 r r y) as Hmid.
    destruct (on_span_range c (c + 2) x) as [-> | ->],
             (on_span_range r r y) as [Hy1 | Hy1];
      rewrite Hy1 in *; case_decide; lia.
Qed.

Lemma blinker_oscillates_witness :
  step_grid 4 5 (rect_grid 4 5 1 1 1 (1 + 2)) = rect_grid 4 5 (1 - 1) (1 + 1) (1 + 1) (1 + 1)
  ∧ step_grid 4 5 (rect_grid 4 5 (1 - 1) (1 + 1) (1 + 1) (1 + 1))
    = rect_grid 4 5 1 1 1 (1 + 2).
Proof. apply (blinker_oscillates 4 5 1 1); lia. Defined.

End torus.

(** ** The whole frame *)

Section whole_frame.
Import Encoder.

(** Lookup in a concatenation of chunks of one length. *)
Lemma lookup_bind_chunk {A B : Type} (f : A → list B) (k : nat) (l : list A) :
  (∀ a, length (f a) = k) →
  ∀ q r : nat, (r < k)%nat →
    (l ≫= f) !! (q * k + r)%nat = l !! q ≫= λ a, f a !! r.
Proof.
  intros Hk. induction l as [|a l IH]; intros q r Hr; [by destruct q|].
  change ((a :: l) ≫= f) with (f a ++ (l ≫= f)).
  destruct q as [|q].
  - simpl. rewrite lookup_app_l by (rewrite Hk; lia). done.
  - rewrite lookup_app_r by (rewrite Hk; lia). rewrite Hk.
    replace (Datatypes.S q * k + r - k)%nat with (q * k + r)%nat by lia.
    by rewrite IH.
Qed.

Lemma length_bind_chunk {A B : Type} (f : A → list B) (k : nat) (l : list A) :
  (∀ a, length (f a) = k) → length (l ≫= f) = (length l * k)%nat.
Proof.
  intros Hk. induction l as [|a l IH]; [done|].
  change ((a :: l) ≫= f) with (f a ++ (l ≫= f)).
  rewrite length_app, Hk, IH. simpl. lia.
Qed.

Lemma length_layout_row (code : Z → Z) width :
  0 ≤ width →
  length ((seqZ 0 width ≫= λ x, unit_words (code x) 0x206D)
          ++ unit_words 0x3030 0x0A6D) = Z.to_nat (3 * (width + 1)).
Proof.
  intros Hw. rewrite length_app, (length_bind_chunk _ 3) by done.
  rewrite length_seqZ. simpl. lia.
Qed.

Lemma length_layout code height width :
  0 ≤ height → 0 ≤ width →
  Z.of_nat (length (layout code height width)) = 3 * (width + 1) * height.
Proof.
  intros Hh Hw. unfold layout.
  rewrite (length_bind_chunk _ (Z.to_nat (3 * (width + 1)))).
  - rewrite length_seqZ. nia.
  - intros y. by apply length_layout_row.
Qed.

Lemma lookup_layout code height width y x o :
  0 ≤ y < height → 0 ≤ x ≤ width → 0 ≤ o < 3 →
  layout code height width !! Z.to_nat (3 * (y * (width + 1) + x) + o)
    = Some (layout_word code width y x o).
Proof.
  intros Hy Hx Ho. unfold layout.
  replace (Z.to_nat (3 * (y * (width + 1) + x) + o))
    with (Z.to_nat y * Z.to_nat (3 * (width + 1)) + Z.to_nat (3 * x + o))%nat
    by (apply Nat2Z.inj; rewrite Nat2Z.inj_add, Nat2Z.inj_mul, !Z2Nat.id by nia; lia).
  rewrite lookup_bind_chunk;
    [|intros; apply length_layout_row; lia|lia].
  rewrite lookup_seqZ_lt by lia. simpl. rewrite Z2Nat.id by lia.
  assert (∀ c s, unit_words c s !! Z.to_nat o =
    Some (match o with 0 => 0x5B1B | 1 => c | _ => s end)) as Hunit.
  { intros c s. assert (o = 0 ∨ o = 1 ∨ o = 2) as [-> | [-> | ->]] by lia; done. }
  destruct (Z.ltb_spec x width) as [Hlt | Hge].
  - rewrite lookup_app_l
      by (rewrite (length_bind_chunk _ 3), length_seqZ by done; lia).
    replace (Z.to_nat (3 * x + o)) with (Z.to_nat x * 3 + Z.to_nat o)%nat by lia.
    rewrite lookup_bind_chunk by (done || lia).
    rewrite lookup_seqZ_lt by lia. simpl. rewrite Z2Nat.id by lia.
    rewrite Hunit. unfold layout_word.
    destruct (Z.ltb_spec x width); [|lia]. by destruct o as [|[| |]|].
  - rewrite lookup_app_r
      by (rewrite (length_bind_chunk _ 3), length_seqZ by done; lia).
    rewrite (length_bind_chunk _ 3), length_seqZ by done.
    replace (Z.to_nat (3 * x + o) - Z.to_nat width * 3)%nat with (Z.to_nat o) by lia.
    rewrite Hunit. unfold layout_word.
    destruct (Z.ltb_spec x width); [lia|]. by destruct o as [|[| |]|].
Qed.

(** Every word offset of the buffer is word [o] of one unit (y, x). *)
Lemma unit_decompose height width i :
  0 ≤ width → 0 ≤ i < 3 * (width + 1) * height →
  ∃ y x o, 0 ≤ y < height ∧ 0 ≤ x ≤ width ∧ 0 ≤ o < 3
           ∧ i = 3 * (y * (width + 1) + x) + o.
Proof.
  intros Hw Hi.
  exists ((i `div` 3) `div` (width + 1)), ((i `div` 3) `mod` (width + 1)), (i `mod` 3).
  pose proof (Z.div_mod i 3 ltac:(lia)).
  pose proof (Z.mod_pos_bound i 3 ltac:(lia)).
  pose proof (Z.div_mod (i `div` 3) (width + 1) ltac:(lia)).
  pose proof (Z.mod_pos_bound (i `div` 3) (width + 1) ltac:(lia)).
  assert (0 ≤ i `div` 3) by (apply Z.div_pos; lia).
  assert (0 ≤ (i `div` 3) `div` (width + 1)) by (apply Z.div_pos; lia).
  assert ((i `div` 3) `div` (width + 1) < height).
  { apply Z.div_lt_upper_bound; [lia|]. apply Z.div_lt_upper_bound; lia. }
  repeat split; lia.
Qed.

(** Two buffers of the size of a frame are equal when they agree on
    every word of every unit. *)
Lemma frame_eq (l1 l2 : list Z) height width :
  0 ≤ height → 0 ≤ width →
  Z.of_nat (length l1) = 3 * (width + 1) * height →
  Z.of_nat (length l2) = 3 * (width + 1) * height →
  (∀ y x o, 0 ≤ y < height → 0 ≤ x ≤ width → 0 ≤ o < 3 →
     l1 !! Z.to_nat (3 * (y * (width + 1) + x) + o)
     = l2 !! Z.to_nat (3 * (y * (width + 1) + x) + o)) →
  l1 = l2.
Proof.
  intros Hh Hw Hl1 Hl2 Heq. apply list_eq. intros i.
  destruct (decide (Z.of_nat i < 3 * (width + 1) * height)) as [Hi | Hi].
  - destruct (unit_decompose height width (Z.of_nat i)) as (y & x & o & Hy & Hx & Ho & Hio);
      [lia|lia|].
    rewrite <- (Nat2Z.id i), Hio. by apply Heq.
  - rewrite !lookup_ge_None_2 by lia. done.
Qed.

(** The words of the buffer after the encoder has run over a layout. *)
Lemma fill_layout_lookup (toks current previous : list Z) code height width y x o :
  0 ≤ height → 0 ≤ width →
  0 ≤ y < height → 0 ≤ x ≤ width → 0 ≤ o < 3 →
  fill_draw_buffer_4bit_color toks (layout code height width) current previous
      height width !! Z.to_nat (3 * (y * (width + 1) + x) + o)
    = Some (layout_word (λ y x, cell_token toks current previous (y * width + x))
              width y x o).
Proof.
  intros Hh Hw Hy Hx Ho.
  destruct (fill_draw_buffer_lookup toks current previous
              (layout code height width) height width) as (_ & Hget & Hframe);
    [lia|lia|].
  pose proof (length_layout code height width Hh Hw) as Hlen.
  destruct (decide (o = 1 ∧ x < width)) as [[-> Hlt] | Hno].
  - replace (3 * (y * (width + 1) + x) + 1) with (word_of width y x)
      by (unfold word_of; lia).
    rewrite Hget by (unfold word_of; nia || lia).
    unfold layout_word. by destruct (Z.ltb_spec x width); [|lia].
  - rewrite Hframe.
    + rewrite lookup_layout by done. unfold layout_word.
      assert (o = 0 ∨ o = 1 ∨ o = 2) as [-> | [-> | ->]] by lia; try done.
      destruct (Z.ltb_spec x width); [lia|done].
    + intros y' x' Hy' Hx'. rewrite Z2Nat.id by nia. unfold word_of.
      intros Heq. apply Hno.
      assert (o = 1) as -> by lia. split; [done|].
      assert (y * (width + 1) + x = y' * (width + 1) + x') as Hu by lia.
      assert (y = y') by nia. nia.
Qed.

(** X7: after the encoder has run over the scaffolding, or over any
    frame it made before, the buffer is the rendering of the grids it was
    given and nothing else: per cell ESC '[', the code of the cell, 'm' and
    a space; per row ESC '[' 0 0 'm' and a newline.  No token of an earlier
    frame is left. *)
Theorem fill_draw_buffer_renders (toks current previous : list Z) code height width :
  0 ≤ height → 0 ≤ width →
  fill_draw_buffer_4bit_color toks (layout code height width) current previous
      height width
    = render_frame toks current previous height width.
Proof.
  intros Hh Hw. apply (frame_eq _ _ height width); [done|done| | |].
  - destruct (fill_draw_buffer_lookup toks current previous
                (layout code height width) height width) as (-> & _); [lia|lia|].
    by apply length_layout.
  - by apply length_layout.
  - intros y x o Hy Hx Ho. rewrite fill_layout_lookup by done.
    unfold render_frame. by rewrite lookup_layout by done.
Qed.

Lemma fill_draw_buffer_renders_witness :
  fill_draw_buffer_4bit_color color_tokens_4bit
      (layout (λ y x, 0x3734) 2 3) [1; 0; 0; 1; 1; 0] [0; 0; 1; 1; 0; 0] 2 3
    = render_frame color_tokens_4bit [1; 0; 0; 1; 1; 0] [0; 0; 1; 1; 0; 0] 2 3.
Proof. apply (fill_draw_buffer_renders _ _ _ _ 2 3); lia. Defined.

(** The words of the buffer after the initialisation loop. *)
Lemma init_draw_buffer_unit_lookup (junk : list Z) height width y x o :
  0 ≤ height → 0 ≤ width →
  Z.of_nat (length junk) = 3 * (width + 1) * height →
  0 ≤ y < height → 0 ≤ x ≤ width → 0 ≤ o < 3 →
  init_draw_buffer junk height width !! Z.to_nat (3 * (y * (width + 1) + x) + o)
    = Some (layout_word (λ _ _, 0x3030) width y x o).
Proof.
  intros Hh Hw Hlen Hy Hx Ho.
  rewrite init_draw_buffer_lookup by (done || rewrite Z2Nat.id; nia).
  rewrite Z2Nat.id by nia. rewrite scaffold_word_unit by (lia || nia).
  unfold layout_word. f_equal.
  assert ((y * (width + 1) + x) `mod` (width + 1) = x) as ->.
  { replace (y * (width + 1) + x) with (x + y * (width + 1)) by lia.
    rewrite Z.mod_add, Z.mod_small; lia. }
  assert (o = 0 ∨ o = 1 ∨ o = 2) as [-> | [-> | ->]] by lia.
  - done.
  - by destruct (x <? width).
  - destruct (Z.eqb_spec x width), (Z.ltb_spec x width); (done || lia).
Qed.

(** X8: the initialisation loop writes every word of the draw buffer:
    whatever the allocation held, the result is the scaffolding. *)
Theorem init_draw_buffer_is_scaffolding (junk : list Z) height width :
  0 ≤ height → 0 ≤ width →
  Z.of_nat (length junk) = 3 * (width + 1) * height →
  init_draw_buffer junk height width = scaffolding height width.
Proof.
  intros Hh Hw Hlen. apply (frame_eq _ _ height width); [done|done| | |].
  - by rewrite length_init_draw_buffer.
  - by apply length_layout.
  - intros y x o Hy Hx Ho. unfold scaffolding.
    rewrite lookup_layout by done.
    by apply init_draw_buffer_unit_lookup.
Qed.

Lemma init_draw_buffer_is_scaffolding_witness :
  init_draw_buffer [7; 7; 7; 7; 7; 7; 7; 7; 7; 7; 7; 7; 7; 7; 7; 7; 7; 7] 2 2
    = scaffolding 2 2.
Proof.
  apply (init_draw_buffer_is_scaffolding _ 2 2); [lia | lia | reflexivity].
Defined.

End whole_frame.

(** ** What the two token tables show *)

Section tables.
Import Encoder.

(** X9: with the monochrome table the code of a cell follows the
    previous grid alone: 47 where the cell was alive, 40 where it was dead,
    whatever the current grid holds. *)
Theorem monochrome_frame_shows_previous_grid (db current previous : list Z) height width i :
  0 ≤ height → 0 ≤ width →
  binary current → binary previous →
  Z.of_nat (length db) = 3 * (width + 1) * height →
  0 ≤ i < height * width →
  token_code (rd (fill_draw_buffer_4bit_color bw_tokens_4bit db current previous
                    height width) (slot width i))
    = if rd previous i =? 1 then "47"%string else "40"%string.
Proof.
  intros Hh Hw Hc Hp Hlen Hi.
  rewrite fill_draw_buffer_slot by (done || nia). unfold cell_token.
  by destruct (rd_binary current i Hc) as [-> | ->],
              (rd_binary previous i Hp) as [-> | ->].
Qed.

Lemma monochrome_frame_shows_previous_grid_witness :
  token_code (rd (fill_draw_buffer_4bit_color bw_tokens_4bit (scaffolding 2 2)
                    [1; 0; 0; 1] [0; 0; 1; 1] 2 2) (slot 2 2))
    = if rd [0; 0; 1; 1] 2 =? 1 then "47"%string else "40"%string.
Proof.
  apply (monochrome_frame_shows_previous_grid (scaffolding 2 2)
           [1; 0; 0; 1] [0; 0; 1; 1] 2 2 2);
    [lia | lia | | | reflexivity | lia];
    unfold binary; repeat constructor; lia.
Defined.

(** X10: with the coloured table a frame determines both grids: two
    pairs of binary grids encoded to the same buffer agree on the current
    and on the previous state of every cell. *)
Theorem coloured_frame_determines_grids
    (db current1 previous1 current2 previous2 : list Z) height width i :
  0 ≤ height → 0 ≤ width →
  binary current1 → binary previous1 → binary current2 → binary previous2 →
  Z.of_nat (length db) = 3 * (width + 1) * height →
  fill_draw_buffer_4bit_color color_tokens_4bit db current1 previous1 height width
    = fill_draw_buffer_4bit_color color_tokens_4bit db current2 previous2 height width →
  0 ≤ i < height * width →
  rd current1 i = rd current2 i ∧ rd previous1 i = rd previous2 i.
Proof.
  intros Hh Hw Hc1 Hp1 Hc2 Hp2 Hlen Heq Hi.
  assert (cell_token color_tokens_4bit current1 previous1 i
          = cell_token color_tokens_4bit current2 previous2 i) as Htok.
  { rewrite <- !(fill_draw_buffer_slot _ db _ _ height width) by (done || nia).
    by rewrite Heq. }
  unfold cell_token in Htok. revert Htok.
  destruct (rd_binary current1 i Hc1) as [-> | ->],
           (rd_binary previous1 i Hp1) as [-> | ->],
           (rd_binary current2 i Hc2) as [-> | ->],
           (rd_binary previous2 i Hp2) as [-> | ->];
    try done; vm_compute; discriminate.
Qed.

Lemma coloured_frame_determines_grids_witness :
  rd [1; 0] 1 = rd [1; 0] 1 ∧ rd [0; 1] 1 = rd [0; 1] 1.
Proof.
  apply (coloured_frame_determines_grids (scaffolding 1 2) [1; 0] [0; 1] [1; 0] [0; 1] 1 2 1);
    [lia | lia | | | | | reflexivity | reflexivity | lia];
    unfold binary; repeat constructor; lia.
Defined.

End tables.

(** ** Hashing and the first grid *)

Section hashing.
Import Driver.

Lemma lor_lt_pow2 a b n :
  0 ≤ n → 0 ≤ a < 2 ^ n → 0 ≤ b < 2 ^ n → 0 ≤ Z.lor a b < 2 ^ n.
Proof.
  intros Hn Ha Hb.
  assert (0 ≤ Z.lor a b) as Hnn by (apply Z.lor_nonneg; lia).
  split; [done|].
  destruct (Z.eq_dec a 0) as [-> | Ha0]; [rewrite Z.lor_0_l; lia|].
  destruct (Z.eq_dec b 0) as [-> | Hb0]; [rewrite Z.lor_0_r; lia|].
  assert (Z.lor a b ≠ 0) as Hne.
  { intros H0. apply Z.lor_eq_0_iff in H0. lia. }
  apply (proj2 (Z.log2_lt_pow2 (Z.lor a b) n ltac:(lia))).
  rewrite Z.log2_lor by lia.
  apply Z.max_lub_lt.
  - apply (proj1 (Z.log2_lt_pow2 a n ltac:(lia))). lia.
  - apply (proj1 (Z.log2_lt_pow2 b n ltac:(lia))). lia.
Qed.

Lemma testbit_above v n m :
  0 ≤ v < 2 ^ n → n ≤ m → Z.testbit v m = false.
Proof.
  intros Hv Hm. destruct (Z.eq_dec v 0) as [-> | ?]; [apply Z.bits_0|].
  apply Z.bits_above_log2; [lia|].
  assert (Z.log2 v < n) by (apply Z.log2_lt_pow2; lia). lia.
Qed.

(** X11: [rotl5] rotates a 64-bit word left by five bits: the result is
    a 64-bit word whose bit [n] is bit [(n - 5) mod 64] of the argument. *)
Theorem rotl5_rotates value n :
  0 ≤ value < 2 ^ 64 → 0 ≤ n < 64 →
  0 ≤ rotl5 value < 2 ^ 64
  ∧ Z.testbit (rotl5 value) n = Z.testbit value ((n - 5) `mod` 64).
Proof.
  intros Hv Hn. unfold rotl5, u64. split.
  - apply lor_lt_pow2; [lia| |].
    + apply Z.mod_pos_bound. lia.
    + rewrite Z.shiftr_div_pow2 by lia. change (8 * 8 - 5) with 59. split.
      * apply Z.div_pos; lia.
      * apply Z.div_lt_upper_bound; lia.
  - rewrite Z.lor_spec, Z.mod_pow2_bits_low by lia.
    rewrite Z.shiftr_spec by lia. change (8 * 8 - 5) with 59.
    destruct (Z.ltb_spec n 5).
    + rewrite Z.shiftl_spec_low by lia. simpl.
      replace ((n - 5) `mod` 64) with (n + 59); [done|].
      replace (n - 5) with (n + 59 + (-1) * 64) by lia.
      rewrite Z.mod_add, Z.mod_small; lia.
    + rewrite Z.shiftl_spec by lia.
      rewrite (testbit_above value 64 (n + 59)) by lia.
      rewrite orb_false_r, Z.mod_small by lia. done.
Qed.

Lemma rotl5_rotates_witness :
  0 ≤ rotl5 (2 ^ 63 + 1) < 2 ^ 64
  ∧ Z.testbit (rotl5 (2 ^ 63 + 1)) 4 = Z.testbit (2 ^ 63 + 1) ((4 - 5) `mod` 64).
Proof. apply (rotl5_rotates (2 ^ 63 + 1) 4); lia. Defined.

Lemma masked_byte_bit h k :
  0 ≤ k < 8 →
  char_wrap (Z.land (Z.shiftr (Z.land h 0x0101010101010101) (8 * k)) 255)
    = Z.b2z (Z.testbit h (8 * k)).
Proof.
  intros Hk.
  rewrite Z.shiftr_land, <- Z.land_assoc.
  assert (Z.land (Z.shiftr 0x0101010101010101 (8 * k)) 255 = Z.ones 1) as ->.
  { assert (k = 0 ∨ k = 1 ∨ k = 2 ∨ k = 3 ∨ k = 4 ∨ k = 5 ∨ k = 6 ∨ k = 7)
      as [-> | [-> | [-> | [-> | [-> | [-> | [-> | ->]]]]]]] by lia; reflexivity. }
  rewrite Z.land_ones by lia.
  pose proof (Z.mod_pos_bound (Z.shiftr h (8 * k)) (2 ^ 1) ltac:(lia)).
  rewrite char_wrap_small by lia.
  change (2 ^ 1) with 2. rewrite <- Z.bit0_mod, Z.shiftr_spec by lia.
  by replace (0 + 8 * k) with (8 * k) by lia.
Qed.

Lemma randomize_lookup (buf : list Z) num_words seed :
  0 ≤ num_words →
  length (randomize buf num_words seed) = length buf ∧
  ∀ j : nat, randomize buf num_words seed !! j =
    if decide (Z.of_nat j < 8 * num_words ∧ (j < length buf)%nat)
    then Some (random_cell seed (Z.of_nat j)) else buf !! j.
Proof.
  intros Hn. unfold randomize.
  set (body := λ (i : Z) '(b, h, abp),
    let h := fxhash h i in
    (store_u64 b abp (Z.land h 0x0101010101010101), h, abp + 8)).
  set (P := λ (m : Z) (st : list Z * Z * Z),
    st.2 = 8 * m ∧ st.1.2 = hash_at seed (Z.to_nat m) ∧ length st.1.1 = length buf ∧
    ∀ j : nat, st.1.1 !! j =
      if decide (Z.of_nat j < 8 * m ∧ (j < length buf)%nat)
      then Some (random_cell seed (Z.of_nat j)) else buf !! j).
  assert (P num_words (for_range 0 num_words body (buf, seed, 0))) as (_ & _ & ? & ?);
    [|done].
  apply for_range_ind; [| |done]; unfold P.
  - simpl. repeat split; try done. intros j. case_decide; [lia|done].
  - intros m [[b h] abp] Hm (Habp & Hh & Hlen & Hlk). simpl in *. subst abp h.
    destruct (store_u64_lookup b (8 * m)
                (Z.land (fxhash (hash_at seed (Z.to_nat m)) m) 0x0101010101010101))
      as [Hlen' Hlk']; [lia|].
    split; [lia|]. split.
    { replace (Z.to_nat (m + 1)) with (Datatypes.S (Z.to_nat m)) by lia.
      simpl. by rewrite Z2Nat.id by lia. }
    split; [congruence|].
    intros j. rewrite Hlk', Hlk, Hlen.
    destruct (decide (8 * m ≤ Z.of_nat j < 8 * m + 8 ∧ (j < length buf)%nat))
      as [[Hj ?] | Hj].
    + rewrite decide_True by lia. f_equal.
      rewrite masked_byte_bit by lia. unfold random_cell.
      destruct (row_col_of_index 8 m (Z.of_nat j)) as [-> ->]; [lia|lia|].
      replace (m * 8) with (8 * m) by lia.
      simpl. by rewrite Z2Nat.id by lia.
    + repeat case_decide; try done; lia.
Qed.

(** X12: the randomisation block overwrites the whole buffer: whatever
    the allocation held, each cell becomes 0 or 1, namely one bit of the
    hash of its word, so the first grid depends on the seed alone. *)
Theorem randomize_overwrites (junk : list Z) num_words seed :
  0 ≤ num_words →
  Z.of_nat (length junk) = 8 * num_words →
  randomize junk num_words seed = random_cells num_words seed
  ∧ binary (randomize junk num_words seed).
Proof.
  intros Hn Hlen.
  destruct (randomize_lookup junk num_words seed Hn) as [Hl Hlk].
  assert (randomize junk num_words seed = random_cells num_words seed) as Heq.
  { apply list_eq. intros j. rewrite Hlk. unfold random_cells.
    rewrite lookup_fmap_seqZ.
    destruct (decide (Z.of_nat j < 8 * num_words)).
    - by rewrite decide_True by lia.
    - rewrite decide_False by lia. apply lookup_ge_None. lia. }
  split; [done|]. rewrite Heq. unfold binary, random_cells.
  apply Forall_fmap, Forall_true. intros j. simpl. unfold random_cell.
  destruct (Z.testbit _ _); auto.
Qed.

Lemma randomize_overwrites_witness :
  randomize [9; 9; 9; 9; 9; 9; 9; 9; 9; 9; 9; 9; 9; 9; 9; 9] 2 12345
    = random_cells 2 12345
  ∧ binary (randomize [9; 9; 9; 9; 9; 9; 9; 9; 9; 9; 9; 9; 9; 9; 9; 9] 2 12345).
Proof. apply (randomize_overwrites _ 2 12345); [lia | reflexivity]. Defined.

(** X13: for dimensions that pass validation the size of a cell buffer
    is a multiple of 8 that holds the grid with fewer than 8 cells of
    padding. *)
Theorem buffer_area_pads_to_8 height width :
  1 ≤ height ≤ 2000 → 1 ≤ width ≤ 2000 →
  buffer_area height width `mod` 8 = 0
  ∧ height * width ≤ buffer_area height width < height * width + 8.
Proof.
  intros Hh Hw. unfold buffer_area, u64.
  rewrite (Z.mod_small (height * width + 7)) by nia. rewrite land_pad8 by nia.
  rewrite (Z.mul_comm 8), Z.mod_mul by lia.
  pose proof (Z.div_mod (height * width + 7) 8 ltac:(lia)).
  pose proof (Z.mod_pos_bound (height * width + 7) 8 ltac:(lia)).
  lia.
Qed.

Lemma buffer_area_pads_to_8_witness :
  buffer_area 25 50 `mod` 8 = 0 ∧ 25 * 50 ≤ buffer_area 25 50 < 25 * 50 + 8.
Proof. apply (buffer_area_pads_to_8 25 50); lia. Defined.

(** X14: the pause after a frame lasts the whole number of nanoseconds
    in [1 / max_fps] seconds, split into seconds and nanoseconds below one
    second; with [max_fps] 0 there is no pause, and with any accepted
    positive rate there is one. *)
Theorem pause_is_frame_period max_fps :
  0 ≤ max_fps ≤ 4800 →
  sleep_seconds max_fps * 1000000000 + sleep_ns max_fps
    = (if max_fps =? 0 then 0 else 1000000000 `div` max_fps)
  ∧ 0 ≤ sleep_ns max_fps < 1000000000
  ∧ pause max_fps =
      (if max_fps =? 0 then []
       else [Sleep (sleep_seconds max_fps) (sleep_ns max_fps)]).
Proof.
  intros Hf. unfold pause, sleep_seconds, sleep_ns.
  destruct (Z.eqb_spec max_fps 0) as [-> | Hne]; [done|].
  pose proof (Z.mod_pos_bound (1000000000 `div` max_fps) 1000000000 ltac:(lia)).
  assert (1 ≤ 1000000000 `div` max_fps ≤ 1000000000) as Hq.
  { split.
    - apply Z.div_le_lower_bound; lia.
    - apply Z.div_le_upper_bound; lia. }
  destruct (Z.eq_dec max_fps 1) as [-> | H1].
  - by vm_compute.
  - assert (1 `div` max_fps = 0) as -> by (apply Z.div_small; lia).
    assert (1000000000 `div` max_fps < 1000000000) as Hlt.
    { apply Z.div_lt_upper_bound; lia. }
    rewrite Z.mod_small by lia. rewrite Z.lor_0_l.
    split; [lia|]. split; [lia|].
    destruct (Z.eqb_spec (1000000000 `div` max_fps) 0); [lia|done].
Qed.

Lemma pause_is_frame_period_witness :
  sleep_seconds 30 * 1000000000 + sleep_ns 30
    = (if 30 =? 0 then 0 else 1000000000 `div` 30)
  ∧ 0 ≤ sleep_ns 30 < 1000000000
  ∧ pause 30 = (if 30 =? 0 then [] else [Sleep (sleep_seconds 30) (sleep_ns 30)]).
Proof. apply (pause_is_frame_period 30); lia. Defined.

End hashing.

(** ** A run, generation by generation *)

Section run.
Import Stepper Encoder Driver.

Lemma layout_ext (code code' : Z → Z → Z) height width :
  0 ≤ height → 0 ≤ width →
  (∀ y x, 0 ≤ y < height → 0 ≤ x < width → code y x = code' y x) →
  layout code height width = layout code' height width.
Proof.
  intros Hh Hw Hcode. apply (frame_eq _ _ height width); try done.
  - by apply length_layout.
  - by apply length_layout.
  - intros y x o Hy Hx Ho. rewrite !lookup_layout by done. f_equal.
    unfold layout_word. destruct o as [|[| |]|]; try done.
    destruct (Z.ltb_spec x width); [|done]. apply Hcode; lia.
Qed.

(** A frame shows only the first [height * width] cells of its grids. *)
Lemma render_frame_take toks (front back : list Z) height width :
  0 ≤ height → 0 ≤ width →
  render_frame toks front back height width =
    render_frame toks (take (Z.to_nat (height * width)) front)
      (take (Z.to_nat (height * width)) back) height width.
Proof.
  intros Hh Hw. unfold render_frame. apply layout_ext; [done|done|].
  intros y x Hy Hx. unfold cell_token.
  by rewrite !rd_take by nia.
Qed.

Lemma take_do_gen_naive height width (dst src : list Z) :
  0 < height < 2 ^ 63 → 0 < width < 2 ^ 63 →
  height * width ≤ Z.of_nat (length src) →
  height * width ≤ Z.of_nat (length dst) →
  take (Z.to_nat (height * width)) (do_gen_naive dst src height width)
    = step_grid height width (take (Z.to_nat (height * width)) src).
Proof.
  intros Hh Hw Hsrc Hdst. apply list_eq. intros i.
  destruct (decide (Z.of_nat i < height * width)) as [Hi | Hi].
  - rewrite lookup_take_lt by lia. by apply do_gen_naive_prefix.
  - rewrite lookup_take_ge by lia. symmetry. apply lookup_ge_None.
    pose proof (length_step_grid height width
                  (take (Z.to_nat (height * width)) src) Hh Hw). lia.
Qed.

(** Encoding over a layout from padded buffers renders their grids. *)
Lemma fill_layout_take toks (front back : list Z) code height width :
  0 ≤ height → 0 ≤ width →
  fill_draw_buffer_4bit_color toks (layout code height width) front back height width
    = render_frame toks (take (Z.to_nat (height * width)) front)
        (take (Z.to_nat (height * width)) back) height width.
Proof.
  intros Hh Hw. rewrite <- render_frame_take by done.
  apply (frame_eq _ _ height width); [done|done| | |].
  - destruct (fill_draw_buffer_lookup toks front back
                (layout code height width) height width) as (-> & _); [lia|lia|].
    by apply length_layout.
  - by apply length_layout.
  - intros y x o Hy Hx Ho. rewrite fill_layout_lookup by done.
    unfold render_frame. by rewrite lookup_layout by done.
Qed.

Lemma randomize_cells (junk : list Z) num_words seed :
  0 ≤ num_words →
  Z.of_nat (length junk) = 8 * num_words →
  randomize junk num_words seed = random_cells num_words seed.
Proof.
  intros Hn Hlen.
  destruct (randomize_lookup junk num_words seed Hn) as [Hl Hlk].
  apply list_eq. intros j. rewrite Hlk. unfold random_cells.
  rewrite lookup_fmap_seqZ.
  destruct (decide (Z.of_nat j < 8 * num_words)).
  - by rewrite decide_True by lia.
  - rewrite decide_False by lia. apply lookup_ge_None. lia.
Qed.

Lemma init_draw_buffer_layout (junk : list Z) height width :
  0 ≤ height → 0 ≤ width →
  Z.of_nat (length junk) = 3 * (width + 1) * height →
  init_draw_buffer junk height width = layout (λ _ _, 0x3030) height width.
Proof.
  intros Hh Hw Hlen. apply (frame_eq _ _ height width); [done|done| | |].
  - by rewrite length_init_draw_buffer.
  - by apply length_layout.
  - intros y x o Hy Hx Ho. rewrite lookup_layout by done.
    by apply init_draw_buffer_unit_lookup.
Qed.

Lemma run_trace_unfold n e c j g gprev :
  run_trace (Datatypes.S n) e c j g gprev =
    if status_sigint e j then [Stdout_reset_font]
    else Stdout_clear
         :: Stdout_draw_buffer (render_frame (tokens c) g gprev (height c) (width c))
         :: Stdout_reset_font
         :: Stdout_gen (Z.of_nat j + 1)
         :: pause (max_fps c)
         ++ run_trace n e c (Datatypes.S j) (step_grid (height c) (width c) g) g.
Proof. reflexivity. Qed.

(** The loop on buffers does what the loop on generations does. *)
Lemma main_loop_run_trace e c fuel :
  0 < height c < 2 ^ 63 → 0 < width c < 2 ^ 63 →
  ∀ (j : nat) b g gprev code,
    gen b = Z.of_nat j → (j ≤ Z.to_nat 50000)%nat →
    height c * width c ≤ Z.of_nat (length (front_buffer b)) →
    height c * width c ≤ Z.of_nat (length (back_buffer b)) →
    take (Z.to_nat (height c * width c)) (front_buffer b) = g →
    take (Z.to_nat (height c * width c)) (back_buffer b) = gprev →
    draw_buffer b = layout code (height c) (width c) →
    (Z.to_nat 50000 - j < fuel)%nat →
    main_loop fuel e c (sleep_seconds (max_fps c)) (sleep_ns (max_fps c)) j b
      = Some (run_trace (Z.to_nat 50000 - j) e c j g gprev).
Proof.
  intros Hh Hw.
  induction fuel as [|fuel IH];
    intros j b g gprev code Hgen Hj Hfront Hback Hg Hgprev Hdraw Hfuel; [lia|].
  rewrite main_loop_unfold. cbv zeta. rewrite Hgen.
  destruct (Z.ltb_spec (Z.of_nat j) 50000) as [Hlt | Hge].
  - replace (Z.to_nat 50000 - j)%nat
      with (Datatypes.S (Z.to_nat 50000 - Datatypes.S j)) by lia.
    rewrite run_trace_unfold.
    destruct (status_sigint e j); [done|].
    assert (u64 (Z.of_nat j + 1) = Z.of_nat j + 1) as ->.
    { unfold u64. apply Z.mod_small. lia. }
    rewrite Hdraw, fill_layout_take, Hg, Hgprev by lia.
    rewrite (IH (Datatypes.S j) _ (step_grid (height c) (width c) g) g
               (λ y x, cell_token (tokens c) g gprev (y * width c + x))).
    + cbn [fmap option_fmap option_map]. by rewrite <- app_comm_cons.
    + cbn [gen]. lia.
    + lia.
    + cbn [front_buffer].
      destruct (do_gen_naive_lookup (height c) (width c)
                  (back_buffer b) (front_buffer b) Hh Hw) as [-> _]. done.
    + done.
    + cbn [front_buffer]. rewrite take_do_gen_naive by done. by rewrite Hg.
    + done.
    + done.
    + lia.
  - replace (Z.to_nat 50000 - j)%nat with 0%nat by lia. done.
Qed.

(** [main] from the end of validation on, for accepted dimensions. *)
Lemma main_run_is_run_trace fuel e c :
  1 ≤ height c ≤ 2000 → 1 ≤ width c ≤ 2000 →
  malloc_ok e 2 && malloc_ok e 1 && malloc_ok e 0 = true →
  50001 ≤ Z.of_nat fuel →
  main_run fuel e c =
    Some ([Malloc (u64 (u64 (3 * (width c + 1) * height c) * 2));
           Malloc (buffer_area (height c) (width c));
           Malloc (buffer_area (height c) (width c))]
          ++ run_trace (Z.to_nat 50000) e c 0 (first_grid e c) (first_grid e c), 0).
Proof.
  intros Hh Hw Hmalloc Hfuel.
  destruct (buffer_area_pad (height c) (width c) Hh Hw) as (Hpad & Harea & Hpos).
  cbv zeta in Hpad, Harea, Hpos.
  unfold main_run. cbv zeta. rewrite Hmalloc. simpl negb. cbv iota.
  fold (buffer_area (height c) (width c)) in *.
  set (area := buffer_area (height c) (width c)) in *.
  rewrite randomize_cells by (lia || (rewrite length_malloc; lia)).
  assert (Z.of_nat (length (random_cells (area `div` 8) (u64 (rand_value e)))) = area)
    as Hlen.
  { unfold random_cells. rewrite length_fmap, length_seqZ. lia. }
  rewrite memcpy_whole by (done || by apply length_malloc).
  rewrite init_draw_buffer_layout;
    [|lia|lia|rewrite length_malloc; unfold u64; rewrite Z.mod_small; nia].
  rewrite (main_loop_run_trace e c fuel ltac:(lia) ltac:(lia) 0%nat _
             (first_grid e c) (first_grid e c) (λ _ _, 0x3030)).
  - cbn [fmap option_fmap option_map]. by rewrite Nat.sub_0_r.
  - done.
  - lia.
  - cbn [front_buffer]. lia.
  - cbn [back_buffer]. lia.
  - done.
  - done.
  - done.
  - lia.
Qed.

Lemma main_run_trace fuel e argv c :
  main_args e argv = inr c →
  malloc_ok e 2 && malloc_ok e 1 && malloc_ok e 0 = true →
  50001 ≤ Z.of_nat fuel →
  main fuel e argv =
    Some ([Malloc (u64 (u64 (3 * (width c + 1) * height c) * 2));
           Malloc (buffer_area (height c) (width c));
           Malloc (buffer_area (height c) (width c))]
          ++ run_trace (Z.to_nat 50000) e c 0 (first_grid e c) (first_grid e c), 0).
Proof.
  intros Hargs Hmalloc Hfuel. unfold main. rewrite Hargs.
  apply main_args_inr in Hargs as (_ & Hh & Hw & _).
  by apply main_run_is_run_trace.
Qed.

(** X15: a run that gets its buffers does, on its output, what the
    loop on generations does: three allocations, then frame [j + 1]
    (clear code, draw buffer, font reset, generation line) shows
    generation [j] against generation [j - 1] (the first frame against
    itself), each generation being the step of the one before, with the
    pause after every frame, until an interrupt or 50000 frames; it
    returns 0.  The padding of the buffers and the tokens of earlier
    frames never show. *)
Theorem main_is_run_trace fuel e argv c :
  main_args e argv = inr c →
  malloc_ok e 2 && malloc_ok e 1 && malloc_ok e 0 = true →
  50001 ≤ Z.of_nat fuel →
  main fuel e argv =
    Some ([Malloc (u64 (u64 (3 * (width c + 1) * height c) * 2));
           Malloc (buffer_area (height c) (width c));
           Malloc (buffer_area (height c) (width c))]
          ++ run_trace (Z.to_nat 50000) e c 0 (first_grid e c) (first_grid e c), 0).
Proof.
  intros Hargs Hmalloc Hfuel.
  destruct (main_args_inr e argv c Hargs) as (_ & Hh & Hw & _).
  unfold main. rewrite Hargs.
  apply main_run_is_run_trace; [exact Hh | exact Hw | exact Hmalloc | exact Hfuel].
Qed.

Lemma main_is_run_trace_witness :
  main (Z.to_nat 50001) example_env ["gol"; "3"; "4"; "0"]%string =
    Some ([Malloc (u64 (u64 (3 * (4 + 1) * 3) * 2));
           Malloc (buffer_area 3 4); Malloc (buffer_area 3 4)]
          ++ run_trace (Z.to_nat 50000) example_env
               {| tokens := color_tokens_4bit; height := 3; width := 4; max_fps := 0 |}
               0
               (first_grid example_env
                  {| tokens := color_tokens_4bit; height := 3; width := 4; max_fps := 0 |})
               (first_grid example_env
                  {| tokens := color_tokens_4bit; height := 3; width := 4; max_fps := 0 |}),
          0).
Proof.
  apply (main_is_run_trace (Z.to_nat 50001) example_env ["gol"; "3"; "4"; "0"]%string
           {| tokens := color_tokens_4bit; height := 3; width := 4; max_fps := 0 |});
    [vm_compute; reflexivity | reflexivity | lia].
Defined.

Lemma frames_cons_frame db g tr :
  frames (Stdout_clear :: Stdout_draw_buffer db :: Stdout_reset_font
          :: Stdout_gen g :: tr) = (db, g) :: frames tr.
Proof. reflexivity. Qed.

Lemma frames_allocs a b c tr : frames ([Malloc a; Malloc b; Malloc c] ++ tr) = frames tr.
Proof. reflexivity. Qed.

Lemma Some_pair_inj {A B : Type} (a a' : A) (b b' : B) :
  Some (a, b) = Some (a', b') → a = a'.
Proof. by intros [= -> _]. Qed.

Lemma frames_pause fps tr : frames (pause fps ++ tr) = frames tr.
Proof. unfold pause. by destruct (_ =? 0). Qed.



Lemma frames_run_trace_unfold n e c j g gprev :
  frames (run_trace (Datatypes.S n) e c j g gprev) =
    if status_sigint e j then []
    else (render_frame (tokens c) g gprev (height c) (width c), Z.of_nat j + 1)
         :: frames (run_trace n e c (Datatypes.S j)
                      (step_grid (height c) (width c) g) g).
Proof.
  rewrite run_trace_unfold. destruct (status_sigint e j); [done|].
  by rewrite frames_cons_frame, frames_pause.
Qed.

(** Frame [i] of the loop on generations. *)
Lemma frames_run_trace_lookup e c n :
  ∀ j g gprev (i : nat) fr,
    frames (run_trace n e c j g gprev) !! i = Some fr →
    fr = (render_frame (tokens c)
            (Nat.iter i (step_grid (height c) (width c)) g)
            (match i with
             | O => gprev
             | Datatypes.S i' => Nat.iter i' (step_grid (height c) (width c)) g
             end)
            (height c) (width c),
          Z.of_nat (j + i) + 1).
Proof.
  induction n as [|n IH]; intros j g gprev i fr; [done|].
  rewrite frames_run_trace_unfold. destruct (status_sigint e j); [done|].
  destruct i as [|i].
  - intros [= <-]. by rewrite Nat.add_0_r.
  - intros Hfr. apply IH in Hfr as ->.
    rewrite <- Nat.iter_succ_r.
    replace (Datatypes.S j + i)%nat with (j + Datatypes.S i)%nat by lia.
    f_equal. f_equal. destruct i as [|i]; [done|]. by rewrite <- Nat.iter_succ_r.
Qed.

(** X16: frame [i] of a run, counted from 0, carries the number [i + 1]
    and shows generation [i] of the first grid against generation [i - 1]
    (the first frame against itself): successive frames show successive
    generations of the same grid. *)
Theorem frames_show_successive_generations fuel e argv c (i : nat) fr :
  main_args e argv = inr c →
  malloc_ok e 2 && malloc_ok e 1 && malloc_ok e 0 = true →
  50001 ≤ Z.of_nat fuel →
  (∃ tr, main fuel e argv = Some (tr, 0) ∧ frames tr !! i = Some fr) →
  fr = (render_frame (tokens c)
          (Nat.iter i (step_grid (height c) (width c)) (first_grid e c))
          (Nat.iter (Nat.pred i) (step_grid (height c) (width c)) (first_grid e c))
          (height c) (width c),
        Z.of_nat i + 1).
Proof.
  intros Hargs Hmalloc Hfuel (tr & Hmain & Hfr).
  rewrite (main_run_trace fuel e argv c Hargs Hmalloc Hfuel) in Hmain.
  apply Some_pair_inj in Hmain as <-.
  rewrite frames_allocs in Hfr.
  apply frames_run_trace_lookup in Hfr as ->. by destruct i.
Qed.

Lemma frames_show_successive_generations_witness :
  let e := {| signal_ok := true; errno_erange := false; malloc_ok := λ _, true;
              heap := λ _, [7; 7; 7]; rand_value := 12345;
              status_sigint := λ k, (3 <=? k)%nat |} in
  let argv := ["gol"; "4"; "5"; "0"]%string in
  let c := {| tokens := color_tokens_4bit; height := 4; width := 5; max_fps := 0 |} in
  ∃ tr fr1 fr2,
    main (Z.to_nat 50001) e argv = Some (tr, 0)
    ∧ frames tr !! 1%nat = Some fr1 ∧ frames tr !! 2%nat = Some fr2
    ∧ fr1 = (render_frame (tokens c)
               (Nat.iter 1 (step_grid (height c) (width c)) (first_grid e c))
               (Nat.iter (Nat.pred 1) (step_grid (height c) (width c)) (first_grid e c))
               (height c) (width c),
             Z.of_nat 1 + 1)
    ∧ fr2 = (render_frame (tokens c)
               (Nat.iter 2 (step_grid (height c) (width c)) (first_grid e c))
               (Nat.iter (Nat.pred 2) (step_grid (height c) (width c)) (first_grid e c))
               (height c) (width c),
             Z.of_nat 2 + 1).
Proof.
  intros e argv c. eexists _, _, _.
  split; [vm_compute; reflexivity|].
  split; [vm_compute; reflexivity|].
  split; [vm_compute; reflexivity|].
  split.
  - apply (frames_show_successive_generations (Z.to_nat 50001) e argv c 1);
      [vm_compute; reflexivity | reflexivity | lia |].
    eexists. split; vm_compute; reflexivity.
  - apply (frames_show_successive_generations (Z.to_nat 50001) e argv c 2);
      [vm_compute; reflexivity | reflexivity | lia |].
    eexists. split; vm_compute; reflexivity.
Defined.

(** The loop on generations when the first interrupt is seen at check
    [j + d]. *)
Lemma run_trace_interrupted e c n :
  ∀ j g gprev (d : nat),
    (d < n)%nat →
    (∀ i, (i < d)%nat → status_sigint e (j + i) = false) →
    status_sigint e (j + d) = true →
    length (frames (run_trace n e c j g gprev)) = d
    ∧ last (run_trace n e c j g gprev) = Some Stdout_reset_font.
Proof.
  induction n as [|n IH]; intros j g gprev d Hd Hbefore Hat; [lia|].
  rewrite frames_run_trace_unfold, run_trace_unfold.
  destruct d as [|d].
  - rewrite Nat.add_0_r in Hat. by rewrite Hat.
  - pose proof (Hbefore 0%nat ltac:(lia)) as Hj0. rewrite Nat.add_0_r in Hj0.
    rewrite !Hj0.
    destruct (IH (Datatypes.S j) (step_grid (height c) (width c) g) g d) as [Hlen Hlast].
    + lia.
    + intros i Hi. replace (Datatypes.S j + i)%nat with (j + Datatypes.S i)%nat by lia.
      apply Hbefore. lia.
    + by replace (Datatypes.S j + d)%nat with (j + Datatypes.S d)%nat by lia.
    + split; [simpl; by rewrite Hlen|].
      rewrite !app_comm_cons, last_app, Hlast. done.
Qed.


(** X17: when [status] is first seen to be [SIGINT] at its check number
    [k], counted from 0, with [k] below 50000, the run has written exactly
    [k] frames, ends by resetting the font, and returns 0. *)
Theorem interrupt_stops_the_run fuel e argv c (k : nat) :
  main_args e argv = inr c →
  malloc_ok e 2 && malloc_ok e 1 && malloc_ok e 0 = true →
  50001 ≤ Z.of_nat fuel →
  Z.of_nat k < 50000 →
  (∀ i, (i < k)%nat → status_sigint e i = false) →
  status_sigint e k = true →
  ∃ tr, main fuel e argv = Some (tr, 0)
        ∧ length (frames tr) = k
        ∧ last tr = Some Stdout_reset_font.
Proof.
  intros Hargs Hmalloc Hfuel Hk Hbefore Hat.
  eexists. split; [by apply main_run_trace|].
  destruct (run_trace_interrupted e c (Z.to_nat 50000) 0 (first_grid e c)
              (first_grid e c) k) as [Hlen Hlast]; [lia|done|done|].
  rewrite frames_allocs. split; [exact Hlen|].
  assert (∀ x (r : list event),
    last r = Some Stdout_reset_font → last (x :: r) = Some Stdout_reset_font) as Hcons.
  { intros x r Hr. by rewrite last_cons, Hr. }
  apply Hcons, Hcons, Hcons, Hlast.
Qed.

Lemma interrupt_stops_the_run_witness :
  ∃ tr, main (Z.to_nat 50001) example_env ["gol"; "2"; "3"; "5"]%string = Some (tr, 0)
        ∧ length (frames tr) = 1%nat
        ∧ last tr = Some Stdout_reset_font.
Proof.
  apply (interrupt_stops_the_run (Z.to_nat 50001) example_env
           ["gol"; "2"; "3"; "5"]%string
           {| tokens := color_tokens_4bit; height := 2; width := 3; max_fps := 5 |} 1);
    [vm_compute; reflexivity | reflexivity | lia | lia | | reflexivity].
  intros i Hi. by replace i with 0%nat by lia.
Defined.



End run.

(** ** What validation accepts *)

Section acceptance.
Import Encoder Driver.

Lemma strtoul_erange text :
  erange (strtoul text) = true → value (strtoul text) = ULONG_MAX.
Proof.
  unfold strtoul. cbv zeta.
  repeat (case_match; simpl; try done).
Qed.

Lemma max_vals_small i : rd max_vals i < ULONG_MAX.
Proof.
  unfold rd. destruct (i <? 0); [done|].
  destruct (Z.to_nat i) as [|[|[|[|n]]]]; done.
Qed.

Lemma not_bad_value_accepted i text :
  ¬ bad_value i text → rejects false i text = false.
Proof.
  unfold bad_value, rejects. cbv zeta. intros Hgood.
  destruct (converted (strtoul text)) eqn:Hconv; [|tauto].
  destruct (String.eqb_spec (rest (strtoul text)) EmptyString) as [Hrest | Hrest];
    [|tauto].
  destruct (Z.ltb_spec (value (strtoul text)) (rd min_vals i)); [tauto|].
  destruct (Z.ltb_spec (rd max_vals i) (value (strtoul text))); [tauto|].
  destruct (erange (strtoul text)) eqn:Her; [|done].
  apply strtoul_erange in Her. pose proof (max_vals_small i). lia.
Qed.

Lemma validate_good argv :
  rejects false 0 (arg argv 1) = false →
  rejects false 1 (arg argv 2) = false →
  rejects false 2 (arg argv 3) = false →
  validate argv false =
    inr ([value (strtoul (arg argv 1)); value (strtoul (arg argv 2));
          value (strtoul (arg argv 3))], false).
Proof.
  intros R0 R1 R2.
  destruct (rejects_false _ _ _ R0) as (_ & _ & _ & E0 & _).
  destruct (rejects_false _ _ _ R1) as (_ & _ & _ & E1 & _).
  destruct (rejects_false _ _ _ R2) as (_ & _ & _ & E2 & _).
  rewrite validate_unfold. unfold validate_step at 3.
  change (arg argv (Z.to_nat (0 + 1))) with (arg argv 1). rewrite R0, E0.
  unfold validate_step at 2.
  change (arg argv (Z.to_nat (1 + 1))) with (arg argv 2). simpl orb. rewrite R1, E1.
  unfold validate_step.
  change (arg argv (Z.to_nat (2 + 1))) with (arg argv 3). simpl orb. rewrite R2, E2.
  done.
Qed.

(** X19: an argument vector that gets past the usage check is accepted
    whenever each of its three values converts, with nothing left after
    the digits, to a number inside its range; the run then uses exactly the
    converted numbers, and the monochrome table when the flag was given
    with at least four more arguments. *)
Theorem validation_accepts_good_values e argv :
  signal_ok e = true → errno_erange e = false →
  4 ≤ Z.of_nat (length argv) →
  is_help (arg argv 1) = false →
  (∀ i, 0 ≤ i < 3 → ¬ bad_value i (arg (value_args argv) (Z.to_nat (i + 1)))) →
  main_args e argv =
    inr {| tokens := if (5 <=? Z.of_nat (length argv)) && is_bw (arg argv 1)
                     then bw_tokens_4bit else color_tokens_4bit;
           height := value (strtoul (arg (value_args argv) 1));
           width := value (strtoul (arg (value_args argv) 2));
           max_fps := value (strtoul (arg (value_args argv) 3)) |}.
Proof.
  intros Hsig Herrno Hargc Hhelp Hgood. unfold main_args. cbv zeta.
  rewrite Hsig, Herrno, Hhelp. simpl negb. cbv iota.
  rewrite andb_false_r, orb_false_r.
  destruct (Z.ltb_spec (Z.of_nat (length argv)) 4) as [?|_]; [lia|].
  pose proof (not_bad_value_accepted 0 _ (Hgood 0 ltac:(lia))) as R0.
  pose proof (not_bad_value_accepted 1 _ (Hgood 1 ltac:(lia))) as R1.
  pose proof (not_bad_value_accepted 2 _ (Hgood 2 ltac:(lia))) as R2.
  change (Z.to_nat (0 + 1)) with 1%nat in R0.
  change (Z.to_nat (1 + 1)) with 2%nat in R1.
  change (Z.to_nat (2 + 1)) with 3%nat in R2.
  unfold value_args in *.
  destruct ((5 <=? Z.of_nat (length argv)) && is_bw (arg argv 1));
    by rewrite validate_good.
Qed.

Lemma validation_accepts_good_values_witness :
  main_args example_env ["gol"; "--bw"; " 25"; "+50"; "0"]%string =
    inr {| tokens := if (5 <=? Z.of_nat (length ["gol"; "--bw"; " 25"; "+50"; "0"]%string))
                        && is_bw (arg ["gol"; "--bw"; " 25"; "+50"; "0"]%string 1)
                     then bw_tokens_4bit else color_tokens_4bit;
           height := value (strtoul (arg (value_args ["gol"; "--bw"; " 25"; "+50"; "0"]%string) 1));
           width := value (strtoul (arg (value_args ["gol"; "--bw"; " 25"; "+50"; "0"]%string) 2));
           max_fps := value (strtoul (arg (value_args ["gol"; "--bw"; " 25"; "+50"; "0"]%string) 3)) |}.
Proof.
  apply (validation_accepts_good_values example_env
           ["gol"; "--bw"; " 25"; "+50"; "0"]%string);
    [reflexivity | reflexivity | simpl; lia | reflexivity |].
  intros i Hi.
  assert (i = 0 ∨ i = 1 ∨ i = 2) as [-> | [-> | ->]] by lia;
    vm_compute; intros [H | [H | [H | H]]]; (discriminate H || by apply H).
Defined.

End acceptance.

(** ** The monochrome flag with too few arguments *)

Section bwflag.
Import Encoder Driver.
Import (notations) Stdlib.Strings.Ascii.

Lemma tolower_45 c : tolower c = 45 → c = 45.
Proof.
  unfold tolower. destruct (Z.leb_spec 65 c), (Z.leb_spec c 90); simpl; lia.
Qed.

Lemma tolower_98 c : tolower c = 98 → c = 98 ∨ c = 66.
Proof.
  unfold tolower. destruct (Z.leb_spec 65 c), (Z.leb_spec c 90); simpl; lia.
Qed.

Lemma is_bw_shape a :
  is_bw a = true →
  ∃ c1 c2 r, a = String c1 (String c2 r) ∧ code c1 = 45
    ∧ (tolower (code c2) = 98
       ∨ (code c2 = 45 ∧ ∃ c3 r', r = String c3 r' ∧ tolower (code c3) = 98)).
Proof.
  unfold is_bw. intros H. apply orb_true_iff in H.
  destruct a as [|c1 [|c2 r]].
  - by destruct H as [H | H]; vm_compute in H.
  - exfalso. destruct H as [H | H]; cbn [strncasecmp] in H;
      change (tolower (code "-")) with 45 in H;
      change (tolower (code "b")) with 98 in H;
      destruct (Z.eqb_spec 45 (tolower (code c1))); apply Z.eqb_eq in H; lia.
  - exists c1, c2, r. split; [done|].
    destruct H as [H | H]; cbn [strncasecmp] in H;
      change (tolower (code "-")) with 45 in H;
      change (tolower (code "b")) with 98 in H;
      destruct (Z.eqb_spec 45 (tolower (code c1))) as [E1 | E1];
      apply Z.eqb_eq in H; try lia;
      (split; [by apply tolower_45|]).
    + left. destruct (Z.eqb_spec 98 (tolower (code c2))); lia.
    + right. destruct (Z.eqb_spec 45 (tolower (code c2))) as [E2 | E2]; [|lia].
      split; [by apply tolower_45|].
      destruct r as [|c3 r']; [vm_compute in H; lia|].
      exists c3, r'. split; [done|].
      cbn [strncasecmp] in H. change (tolower (code "b")) with 98 in H.
      destruct (Z.eqb_spec 98 (tolower (code c3))); lia.
Qed.

Lemma is_bw_not_number a :
  is_bw a = true → is_help a = false ∧ converted (strtoul a) = false.
Proof.
  intros H. apply is_bw_shape in H as (c1 & c2 & r & -> & Hc1 & Hc2).
  assert (isdigit (code c2) = false ∧ tolower (code c2) ≠ 104) as [Hdig Hnh].
  { destruct Hc2 as [H98 | [H45 _]].
    - apply tolower_98 in H98 as Hc. unfold isdigit.
      destruct Hc as [-> | ->]; split; (done || lia).
    - rewrite H45. by split. }
  split.
  - unfold is_help. cbn [strncasecmp]. rewrite Hc1.
    change (tolower 45) with 45. change (tolower (code "-")) with 45.
    change (tolower (code "h")) with 104. change (45 =? 45) with true. cbv iota.
    apply orb_false_iff. split.
    + destruct (Z.eqb_spec (tolower (code c2)) 104); [lia|].
      apply Z.eqb_neq. lia.
    + destruct (Z.eqb_spec (tolower (code c2)) 45) as [E | E];
        [|apply Z.eqb_neq; lia].
      destruct Hc2 as [H98 | (_ & c3 & r' & -> & H98)]; [lia|].
      cbn [strncasecmp]. change (tolower (code "h")) with 104. rewrite H98.
      done.
  - unfold strtoul. cbn [skip_spaces]. rewrite Hc1.
    change (isspace 45) with false. cbv iota. rewrite Hc1.
    change (45 =? 45) with true. cbv iota zeta beta. by rewrite Hdig.
Qed.

(** X20: the monochrome flag is honoured only when at least four
    arguments follow the program name: with exactly three, the flag and
    two more, the flag is taken for the height, and [main] reports
    argument 1 on the error stream and returns 1. *)
Theorem bw_flag_needs_three_values fuel e argv :
  signal_ok e = true →
  length argv = 4%nat →
  is_bw (arg argv 1) = true →
  main fuel e argv = Some ([Stderr_bad_input 1 "height" 1 2000], 1).
Proof.
  intros Hsig Hlen Hbw.
  destruct (is_bw_not_number _ Hbw) as [Hhelp Hconv].
  unfold main, main_args. cbv zeta. rewrite Hsig, Hlen, Hhelp.
  simpl negb. cbv iota. change (Z.of_nat 4 <? 4) with false.
  change (5 <=? Z.of_nat 4) with false. simpl.
  rewrite validate_unfold. unfold validate_step at 3.
  change (arg argv (Z.to_nat (0 + 1))) with (arg argv 1).
  assert (rejects (errno_erange e) 0 (arg argv 1) = true) as ->.
  { unfold rejects. cbv zeta. by rewrite Hconv. }
  done.
Qed.

Lemma bw_flag_needs_three_values_witness :
  main 0 example_env ["gol"; "--BW"; "25"; "50"]%string
    = Some ([Stderr_bad_input 1 "height" 1 2000], 1).
Proof.
  apply (bw_flag_needs_three_values 0 example_env ["gol"; "--BW"; "25"; "50"]%string);
    reflexivity.
Defined.

End bwflag.
